(** * Qualia Arc Protocol: anomaly tracker and time-locked miracle decay

    A shallow embedding of [src/anomaly_tracker.py], [src/miracle_decay.py],
    [src/reignition_protocol_v2.py] and [core/qualia_arc_core.py].

    Number model.  Python [float] values are read as real numbers ([R]):
    the arithmetic of the source ([+], [-], [*], [/], [np.exp],
    [np.linalg.norm]) is the exact arithmetic of the reals, without rounding,
    overflow, infinities or NaN.  Statements over this model are meant up to
    the rounding of binary64; where a statement needs its inputs to be
    ordinary numbers (no NaN, no overflow) the hypotheses say so through
    bounds, and a conclusion about a comparison is stated as the comparison
    the code makes.  [Binary64] embeds the threshold and the score update in
    binary64 itself, where the real-number reading does not hold.
    Python [int] values ([k_max], [turns_elapsed]) are [Z]; [//] is floor
    division, which is [Z.div].  One-dimensional numpy arrays are lists of
    reals. *)

From Stdlib Require Import String Reals List ZArith Lra Lia Bool.
From Stdlib Require PrimFloat.
Import ListNotations.
Open Scope R_scope.

(** [x > y] on floats, as a boolean. *)
Definition Rgtb (x y : R) : bool := if Rlt_dec y x then true else false.

(** What a Python call produces: a returned value or a raised exception. *)
Inductive exn : Type := ValueError.

Inductive outcome (A : Type) : Type :=
| Returned (a : A)
| Raised (e : exn).
Arguments Returned {A} a.
Arguments Raised {A} e.

(** ** The part of numpy the source uses, on one-dimensional arrays *)
Module Numpy.

Definition ndarray := list R.

(** [np.zeros(n)] *)
Definition zeros (n : nat) : ndarray := repeat 0 n.

Fixpoint zip_sub (xs ys : ndarray) : ndarray :=
  match xs, ys with
  | x :: xs', y :: ys' => (x - y) :: zip_sub xs' ys'
  | _, _ => []
  end.

(** [a - b]: shapes [(n,)] and [(m,)] are compatible when [n = m] or one of
    them is 1 (broadcasting); any other pair raises [ValueError], here
    [None]. *)
Definition subtract (xs ys : ndarray) : option ndarray :=
  if Nat.eqb (length xs) (length ys) then Some (zip_sub xs ys)
  else match xs, ys with
       | [x], _ => Some (map (fun y => x - y) ys)
       | _, [y] => Some (map (fun x => x - y) xs)
       | _, _ => None
       end.

(** [x.dot(x)] *)
Fixpoint sqnorm (v : ndarray) : R :=
  match v with
  | [] => 0
  | x :: v' => x * x + sqnorm v'
  end.

(** [np.linalg.norm(v)] for a one-dimensional real array. *)
Definition norm (v : ndarray) : R := sqrt (sqnorm v).

(** [a * c] for an array [a] and a scalar [c]. *)
Definition scale (v : ndarray) (c : R) : ndarray := map (fun x => x * c) v.

(** [np.mean(v)]; on an empty array numpy answers [nan], which the reals do
    not have: properties of callers assume a non-empty array. *)
Definition mean (v : ndarray) : R := fold_right Rplus 0 v / INR (length v).

(** [np.clip(x, lo, hi)] on a scalar. *)
Definition clip (x lo hi : R) : R := Rmin (Rmax x lo) hi.

(** [np.dot(a, b)] for one-dimensional arrays: the lengths must agree, no
    broadcasting; [None] is the [ValueError]. *)
Fixpoint zip_dot (xs ys : ndarray) : R :=
  match xs, ys with
  | x :: xs', y :: ys' => x * y + zip_dot xs' ys'
  | _, _ => 0
  end.

Definition dot (xs ys : ndarray) : option R :=
  if Nat.eqb (length xs) (length ys) then Some (zip_dot xs ys) else None.

End Numpy.

(** ** [src/anomaly_tracker.py] *)
Module AnomalyTracker.

Record t : Type := mk {
  tau : R;
  g0 : R;
  alpha : R;
  a_anom : R
}.

(** [__init__] *)
Definition init (tau g0 alpha : R) : t := mk tau g0 alpha 0.

Definition set_a_anom (s : t) (a : R) : t := mk (tau s) (g0 s) (alpha s) a.

(** [update_anomaly]: the subtraction may raise before [self.a_anom] is
    assigned; the tracker after the call is the first component. *)
Definition update_anomaly (s : t) (d_obs d_hat_history : list R)
  : t * outcome R :=
  match Numpy.subtract d_obs d_hat_history with
  | None => (s, Raised ValueError)
  | Some diff =>
      let distance := Numpy.norm diff in
      let a := (1 - tau s) * a_anom s + tau s * distance in
      (set_a_anom s a, Returned a)
  end.

(** [calculate_g_min] *)
Definition calculate_g_min (s : t) : R :=
  let fraction := a_anom s / (a_anom s + alpha s) in
  g0 s + (1 - g0 s) * fraction.

(** Successive [update_anomaly] calls, one per pair (observed, predicted). *)
Fixpoint updates (s : t) (calls : list (list R * list R)) : t :=
  match calls with
  | [] => s
  | (d_obs, d_hat) :: rest => updates (fst (update_anomaly s d_obs d_hat)) rest
  end.

(** The first loop of the module's demonstration: five updates of a fresh
    tracker with the same observed and predicted vectors. *)
Definition lie_phase : t :=
  updates (init 0.2 0.4 1)
          (repeat ([0.1; 0.1; 0.1; 0.1], [0.8; 0.8; 0.8; 0.8]) 5).

End AnomalyTracker.

(** Approximate equality up to a tolerance. *)
Definition approx (x y eps : R) : Prop := Rabs (x - y) <= eps.

(** Python's [round(x, 4)]: the multiple of [10^-4] nearest to [x], ties to
    the even one. *)
Definition round_half_even (x : R) : Z :=
  let f := Int_part x in
  let r := frac_part x in
  if Rlt_dec r (1 / 2) then f
  else if Rlt_dec (1 / 2) r then (f + 1)%Z
  else if Z.even f then f else (f + 1)%Z.

Definition round4 (x : R) : R := IZR (round_half_even (x * 10 ^ 4)) / 10 ^ 4.

(** ** [src/miracle_decay.py] *)
Module MiracleDecay.

Inductive MiraclePhase : Type :=
| NONE
| PENDING
| CONFIRMED
| CANCELLED
| HIJACK_DETECTED.

(** The [.value] of each member of the enum. *)
Definition value (p : MiraclePhase) : string :=
  match p with
  | NONE => "none"
  | PENDING => "pending"
  | CONFIRMED => "confirmed"
  | CANCELLED => "cancelled"
  | HIJACK_DETECTED => "hijack"
  end.

Definition phase_eqb (p q : MiraclePhase) : bool :=
  match p, q with
  | NONE, NONE | PENDING, PENDING | CONFIRMED, CONFIRMED
  | CANCELLED, CANCELLED | HIJACK_DETECTED, HIJACK_DETECTED => true
  | _, _ => false
  end.

(** The three shapes of [log_entry] dictionaries, by their ["event"] key. *)
Inductive LogEntry : Type :=
| EvCancelled (turn : Z) (d_dot theta_cancel : R)
              (hijack_suspected integrals_unchanged : bool)
| EvTick (turn : Z) (d_dot decay_factor : R) (projected_integrals : list R)
| EvConfirmed (integrals_before integrals_after : list R) (rho : R).

Definition event (e : LogEntry) : string :=
  match e with
  | EvCancelled _ _ _ _ _ => "cancelled"
  | EvTick _ _ _ _ => "tick"
  | EvConfirmed _ _ _ => "confirmed"
  end.

Record MiracleDecayState : Type := mkState {
  phase : MiraclePhase;
  turns_elapsed : Z;
  initial_integrals : list R;
  decay_log : list LogEntry
}.

(** [MiracleDecayState()] with the dataclass defaults. *)
Definition default_state : MiracleDecayState :=
  mkState NONE 0 (Numpy.zeros 4) [].

Record MiracleDecayManager : Type := mkManager {
  k_max : Z;
  theta_cancel : R;
  rho : R;
  kappa : R;
  state : MiracleDecayState;
  history : list LogEntry
}.

(** [__init__] *)
Definition init (k_max : Z) (theta_cancel rho kappa : R) : MiracleDecayManager :=
  mkManager k_max theta_cancel rho kappa default_state [].

Definition with_state (m : MiracleDecayManager) (s : MiracleDecayState)
  : MiracleDecayManager :=
  mkManager (k_max m) (theta_cancel m) (rho m) (kappa m) s (history m).

Definition with_state_history (m : MiracleDecayManager)
           (s : MiracleDecayState) (h : list LogEntry) : MiracleDecayManager :=
  mkManager (k_max m) (theta_cancel m) (rho m) (kappa m) s h.

(** The dictionaries returned by [attempt_miracle], by their ["result"]
    key; the ["message"] texts are left out. *)
Inductive AttemptResult : Type :=
| AlreadyPending (turns_remaining : Z)
| Pending (g_value g_min : R) (k_max : Z)
| Rejected (g_value g_min v_consistency : R).

Definition result (r : AttemptResult) : string :=
  match r with
  | AlreadyPending _ => "already_pending"
  | Pending _ _ _ => "pending"
  | Rejected _ _ _ => "rejected"
  end.

(** The dictionaries returned by [tick], by their ["action"] key; the
    ["message"] texts are left out. *)
Inductive TickResult : Type :=
| ActNone (phase : string)
| ActRollback (phase : string) (hijack_suspected : bool)
| ActApplyReset (new_integrals integrals_before integrals_after : list R)
| ActMonitoring (turns_remaining : Z) (decay_factor : R).

Definition action (r : TickResult) : string :=
  match r with
  | ActNone _ => "none"
  | ActRollback _ _ => "rollback"
  | ActApplyReset _ _ _ => "apply_reset"
  | ActMonitoring _ _ => "monitoring"
  end.

(** The ["phase"] key of a [tick] result. *)
Definition result_phase (r : TickResult) : string :=
  match r with
  | ActNone p => p
  | ActRollback p _ => p
  | ActApplyReset _ _ _ => "confirmed"
  | ActMonitoring _ _ => "pending"
  end.

(** [result.get("new_integrals")] *)
Definition new_integrals (r : TickResult) : option (list R) :=
  match r with
  | ActApplyReset n _ _ => Some n
  | _ => None
  end.

(** [attempt_miracle]; [integrals.copy()] is the list itself. *)
Definition attempt_miracle (m : MiracleDecayManager) (integrals : list R)
           (g_value g_min v_consistency : R)
  : MiracleDecayManager * AttemptResult :=
  if phase_eqb (phase (state m)) PENDING then
    (m, AlreadyPending (k_max m - turns_elapsed (state m)))
  else if Rgtb g_value g_min && Rgtb v_consistency 0.7 then
    (with_state m (mkState PENDING 0 integrals []),
     Pending g_value g_min (k_max m))
  else
    (m, Rejected g_value g_min v_consistency).

(** [tick].  The [integrals] argument is never read or written by the
    source. *)
Definition tick (m : MiracleDecayManager) (integrals : list R) (d_dot : R)
  : MiracleDecayManager * TickResult :=
  let s := state m in
  if negb (phase_eqb (phase s) PENDING) then
    (m, ActNone (value (phase s)))
  else
    let turns := (turns_elapsed s + 1)%Z in
    if Rgtb d_dot (theta_cancel m) then
      let is_hijack := (turns <=? k_max m / 2)%Z in
      let ph := if is_hijack then HIJACK_DETECTED else CANCELLED in
      let log_entry :=
        EvCancelled turns d_dot (theta_cancel m) is_hijack true in
      (with_state_history m
         (mkState ph turns (initial_integrals s) (decay_log s ++ [log_entry]))
         (history m ++ [log_entry]),
       ActRollback (value ph) is_hijack)
    else
      let k := turns in
      let decay_factor := exp (- kappa m * IZR k) in
      let projected_integrals := Numpy.scale (initial_integrals s) decay_factor in
      let log_entry :=
        EvTick k d_dot (round4 decay_factor) projected_integrals in
      let log := decay_log s ++ [log_entry] in
      if (k_max m <=? turns)%Z then
        let confirmed_integrals :=
          Numpy.scale (initial_integrals s) (1 - rho m) in
        (with_state_history m
           (mkState CONFIRMED turns (initial_integrals s) log)
           (history m ++ [EvConfirmed (initial_integrals s)
                                      confirmed_integrals (rho m)]),
         ActApplyReset confirmed_integrals (initial_integrals s)
                       confirmed_integrals)
      else
        (with_state m (mkState PENDING turns (initial_integrals s) log),
         ActMonitoring (k_max m - turns) (round4 decay_factor)).

(** [reset] *)
Definition reset (m : MiracleDecayManager) : MiracleDecayManager :=
  with_state m default_state.

Definition get_phase (m : MiracleDecayManager) : MiraclePhase :=
  phase (state m).

Definition get_history (m : MiracleDecayManager) : list LogEntry :=
  history m.

(** A loop of [tick] calls, one per pair (integrals, d_dot), collecting the
    returned dictionaries in order. *)
Fixpoint ticks (m : MiracleDecayManager) (calls : list (list R * R))
  : MiracleDecayManager * list TickResult :=
  match calls with
  | [] => (m, [])
  | (integrals, d_dot) :: rest =>
      let (m1, r) := tick m integrals d_dot in
      let (m2, rs) := ticks m1 rest in
      (m2, r :: rs)
  end.

(** The calls a client can make on a manager, and a sequence of them. *)
Inductive Call : Type :=
| CallAttempt (integrals : list R) (g_value g_min v_consistency : R)
| CallTick (integrals : list R) (d_dot : R)
| CallReset.

Definition call (m : MiracleDecayManager) (c : Call) : MiracleDecayManager :=
  match c with
  | CallAttempt i g gm v => fst (attempt_miracle m i g gm v)
  | CallTick i d => fst (tick m i d)
  | CallReset => reset m
  end.

Definition calls (m : MiracleDecayManager) (cs : list Call)
  : MiracleDecayManager :=
  fold_left call cs m.

(** The terminal phases of a cycle. *)
Definition terminal (p : MiraclePhase) : bool :=
  match p with
  | CONFIRMED | CANCELLED | HIJACK_DETECTED => true
  | _ => false
  end.

(** The configuration of a manager is fixed at construction. *)
Definition same_config (m m' : MiracleDecayManager) : Prop :=
  k_max m' = k_max m /\ theta_cancel m' = theta_cancel m /\
  rho m' = rho m /\ kappa m' = kappa m.

End MiracleDecay.

(** [x < y] and [x >= y] on floats, as booleans. *)
Definition Rltb (x y : R) : bool := Rgtb y x.
Definition Rgeb (x y : R) : bool := negb (Rgtb y x).

(** Python's [round(x, ndigits)] for a non-negative number of digits. *)
Definition py_round (x : R) (ndigits : nat) : R :=
  IZR (round_half_even (x * 10 ^ ndigits)) / 10 ^ ndigits.

(** ** [AnomalyTrackerV2] of [src/miracle_decay.py] *)
Module AnomalyTrackerV2.

Record t : Type := mk {
  tau : R;
  g0 : R;
  alpha : R;
  a_anom : R;
  miracle_manager : MiracleDecay.MiracleDecayManager
}.

(** [__init__]; the manager is built without [kappa], which takes its
    default 0.5. *)
Definition init (tau g0 alpha : R) (k_max : Z) (theta_cancel rho : R) : t :=
  mk tau g0 alpha 0 (MiracleDecay.init k_max theta_cancel rho 0.5).

Definition set_a_anom (s : t) (a : R) : t :=
  mk (tau s) (g0 s) (alpha s) a (miracle_manager s).

Definition set_manager (s : t) (m : MiracleDecay.MiracleDecayManager) : t :=
  mk (tau s) (g0 s) (alpha s) (a_anom s) m.

Definition update_anomaly (s : t) (d_obs d_hat_history : list R)
  : t * outcome R :=
  match Numpy.subtract d_obs d_hat_history with
  | None => (s, Raised ValueError)
  | Some diff =>
      let distance := Numpy.norm diff in
      let a := (1 - tau s) * a_anom s + tau s * distance in
      (set_a_anom s a, Returned a)
  end.

Definition calculate_g_min (s : t) : R :=
  let fraction := a_anom s / (a_anom s + alpha s) in
  g0 s + (1 - g0 s) * fraction.

(** [attempt_miracle]: the threshold handed to the manager is the tracker's
    current [calculate_g_min()]. *)
Definition attempt_miracle (s : t) (integrals : list R)
           (g_value v_consistency : R) : t * MiracleDecay.AttemptResult :=
  let g_min := calculate_g_min s in
  let r := MiracleDecay.attempt_miracle (miracle_manager s) integrals
                                        g_value g_min v_consistency in
  (set_manager s (fst r), snd r).

Definition tick (s : t) (integrals : list R) (d_dot : R)
  : t * MiracleDecay.TickResult :=
  let r := MiracleDecay.tick (miracle_manager s) integrals d_dot in
  (set_manager s (fst r), snd r).

(** The fields the class shares with [AnomalyTracker]. *)
Definition tracker (s : t) : AnomalyTracker.t :=
  AnomalyTracker.mk (tau s) (g0 s) (alpha s) (a_anom s).

(** Successive [update_anomaly] calls, one per pair (observed, predicted). *)
Fixpoint updates (s : t) (calls : list (list R * list R)) : t :=
  match calls with
  | [] => s
  | (d_obs, d_hat) :: rest => updates (fst (update_anomaly s d_obs d_hat)) rest
  end.

End AnomalyTrackerV2.

(** ** [src/reignition_protocol_v2.py] *)
Module Reignition.

Definition DELTA_P_BASE : R := 0.5.
Definition LAMBDA_I : R := 0.15.
Definition LAMBDA_T : R := 2.
Definition DELTA_R : R := 0.3.
Definition ETA_R : R := 3.

Definition vulnerability_factor (fatigue_integrals : list R)
           (trauma_active lambda_I lambda_T : R) : R :=
  let i_bar := Numpy.mean fatigue_integrals in
  let v := exp (- lambda_I * i_bar - lambda_T * trauma_active) in
  Numpy.clip v 0.0001 1.

Definition relational_factor (g_rel delta eta : R) : R :=
  1 + delta * tanh (eta * g_rel).

(** The dictionary returned by [dynamic_safety_cap]. *)
Record CapDetail : Type := mkCap {
  cap_delta_p_max : R;
  cap_V : R;
  cap_R : R;
  cap_I_bar : R;
  cap_trauma_active : R;
  cap_g_rel : R
}.

Definition dynamic_safety_cap (fatigue_integrals : list R)
           (trauma_active g_rel delta_p_base : R) : CapDetail :=
  let v := vulnerability_factor fatigue_integrals trauma_active LAMBDA_I LAMBDA_T in
  let r := relational_factor g_rel DELTA_R ETA_R in
  let delta_p_max := delta_p_base * v * r in
  mkCap (py_round delta_p_max 4) (py_round v 4) (py_round r 4)
        (py_round (Numpy.mean fatigue_integrals) 3)
        (py_round trauma_active 3) (py_round g_rel 3).

(** [ReignitionResult], without its [message]. *)
Record ReignitionResult : Type := mkResult {
  permitted : bool;
  delta_p_max : R;
  selected_delta_p : R;
  case : string;
  cap_detail : CapDetail
}.

Definition reignition_decision (fatigue_integrals : list R)
           (trauma_active g_rel proposed_delta_p a_anom theta_anom : R)
  : ReignitionResult :=
  let cap := dynamic_safety_cap fatigue_integrals trauma_active g_rel DELTA_P_BASE in
  let delta_p_max := cap_delta_p_max cap in
  let actual_delta_p := Rmin proposed_delta_p delta_p_max in
  let anomaly_blocked := Rgtb a_anom theta_anom in
  if Rltb delta_p_max 0.05 then
    mkResult false delta_p_max 0 "BLOCKED" cap
  else if anomaly_blocked then
    mkResult false delta_p_max 0 "ANOMALY_HOLD" cap
  else if Rgeb actual_delta_p 0.3 && Rgtb (cap_R cap) 1.1 then
    mkResult true delta_p_max (py_round actual_delta_p 4) "CASE_B" cap
  else if Rgtb actual_delta_p 0 then
    mkResult true delta_p_max (py_round actual_delta_p 4) "CASE_A" cap
  else
    mkResult false delta_p_max 0 "NO_INTERVENTION" cap.

End Reignition.

(** ** [core/qualia_arc_core.py] *)
Module QualiaArcCore.

Record t : Type := mk {
  epsilon : R;
  lambda_pain : R;
  lambda_code : R;
  theta_sigma : R;
  df : Z;
  theta_raw : R;
  theta_anom : R;
  saturation : R;
  safety_base : R
}.

(** [__init__].  [theta_raw] is [np.sqrt(chi2.ppf(0.999, 4))], a quantile
    computed by scipy; it is the argument [fast_threshold]. *)
Definition init (fast_threshold : R) : t :=
  mk 0.00001 0.85 0.15 0.8 4 fast_threshold 2 0 0.

Definition set_saturation (s : t) (x : R) : t :=
  mk (epsilon s) (lambda_pain s) (lambda_code s) (theta_sigma s) (df s)
     (theta_raw s) (theta_anom s) x (safety_base s).

(** [iron_rule_constraint]; the logging calls of this class are left out. *)
Definition iron_rule_constraint (s : t) (truth_value min_truth : R) : bool :=
  if Rltb truth_value min_truth then false else true.

(** [calculate_symbiosis_state] *)
Definition calculate_symbiosis_state (s : t) (A P D : R)
           (psi_vector w_psi : list R) : outcome R :=
  let base_value := (A * P) / (D + epsilon s) in
  match Numpy.dot psi_vector w_psi with
  | None => Raised ValueError
  | Some x =>
      let activation := 1 + x in
      Returned (base_value * activation)
  end.

(** [quantum_humor_tunneling] *)
Definition quantum_humor_tunneling (s : t) (H_t beta : R) : t * R :=
  let activation_prob :=
    1 / (1 + exp (- beta * (saturation s - theta_sigma s))) in
  let A_cosmic := H_t * activation_prob in
  if Rgtb activation_prob 0.5 then
    (set_saturation s (saturation s * 0.1), A_cosmic)
  else (s, A_cosmic).

(** [dual_route_anomaly_detector] *)
Definition dual_route_anomaly_detector (s : t) (residual_vector : list R)
  : bool :=
  let mahalanobis_dist := Numpy.norm residual_vector in
  if Rgtb mahalanobis_dist (theta_raw s) then true
  else if Rgtb mahalanobis_dist (theta_anom s) then true
  else false.

End QualiaArcCore.

(** ** [src/anomaly_tracker.py] in binary64

    The same two methods with Python's own floats: every operation rounds to
    the nearest binary64 value, as the interpreter does.  [update_anomaly] is
    given for vectors of the same length. *)
Module Binary64.

Import PrimFloat.

Fixpoint zip_sub (xs ys : list float) : list float :=
  match xs, ys with
  | x :: xs', y :: ys' => PrimFloat.sub x y :: zip_sub xs' ys'
  | _, _ => []
  end.

(** [np.linalg.norm(v)]: the square root of [v.dot(v)]. *)
Definition norm (v : list float) : float :=
  PrimFloat.sqrt
    (fold_left (fun acc x => PrimFloat.add acc (PrimFloat.mul x x)) v 0%float).

(** The new [a_anom] of [update_anomaly]. *)
Definition update_anomaly (tau a_anom : float) (d_obs d_hat_history : list float)
  : float :=
  let distance := norm (zip_sub d_obs d_hat_history) in
  PrimFloat.add (PrimFloat.mul (PrimFloat.sub 1%float tau) a_anom)
                (PrimFloat.mul tau distance).

(** [calculate_g_min] *)
Definition calculate_g_min (g0 alpha a_anom : float) : float :=
  let fraction := PrimFloat.div a_anom (PrimFloat.add a_anom alpha) in
  PrimFloat.add g0 (PrimFloat.mul (PrimFloat.sub 1%float g0) fraction).

End Binary64.

(** ** Notions used to state properties *)

(** What holds of the cycle fields of a manager between calls. *)
Definition cycle_invariant (m : MiracleDecay.MiracleDecayManager) : Prop :=
  let s := MiracleDecay.state m in
  let t := MiracleDecay.turns_elapsed s in
  let k := MiracleDecay.k_max m in
  (0 <= t)%Z /\
  Z.of_nat (length (MiracleDecay.decay_log s)) = t /\
  match MiracleDecay.phase s with
  | MiracleDecay.NONE => t = 0%Z
  | MiracleDecay.PENDING => (t = 0 \/ t < k)%Z
  | MiracleDecay.CONFIRMED => (k <= t /\ (t <= k \/ t = 1))%Z
  | MiracleDecay.CANCELLED => (k / 2 < t /\ (t <= k \/ t = 1))%Z
  | MiracleDecay.HIJACK_DETECTED => (1 <= t <= k / 2)%Z
  end.

(** A record as the manager [m] writes it to its history. *)
Definition audit_record (m : MiracleDecay.MiracleDecayManager)
           (e : MiracleDecay.LogEntry) : Prop :=
  match e with
  | MiracleDecay.EvCancelled turn d_dot theta hijack unchanged =>
      unchanged = true /\ theta = MiracleDecay.theta_cancel m /\
      theta < d_dot /\ (1 <= turn)%Z /\
      hijack = (turn <=? MiracleDecay.k_max m / 2)%Z
  | MiracleDecay.EvConfirmed before after rho =>
      rho = MiracleDecay.rho m /\
      after = map (fun x => x * (1 - rho)) before
  | MiracleDecay.EvTick _ _ _ _ => False
  end.

(** Each call whose vectors are compatible has a distance of at most [D]. *)
Definition distances_within (D : R) (calls : list (list R * list R)) : Prop :=
  Forall (fun c => forall d, Numpy.subtract (fst c) (snd c) = Some d ->
                             Numpy.norm d <= D) calls.

(** Pick the record that a goal [exists e, _ /\ log ++ [x] = log ++ [e]] needs. *)
Ltac pick_record :=
  match goal with
  | |- exists e, _ /\ _ ++ [?x] = _ =>
      exists x; split; [simpl; auto | reflexivity]
  end.

(** * Comparison of floats *)

Lemma Rgtb_true (x y : R) : y < x -> Rgtb x y = true.
Proof. unfold Rgtb; intros H; destruct (Rlt_dec y x); [reflexivity | contradiction]. Qed.

Lemma Rgtb_false (x y : R) : x <= y -> Rgtb x y = false.
Proof. unfold Rgtb; intros H; destruct (Rlt_dec y x); [lra | reflexivity]. Qed.

Lemma Rgtb_true_iff (x y : R) : Rgtb x y = true <-> y < x.
Proof.
  unfold Rgtb; destruct (Rlt_dec y x); split; intros H; try reflexivity;
    try assumption; try discriminate; contradiction.
Qed.

(** * Properties of the anomaly tracker *)

Section NumpyFacts.

Import Numpy.

Lemma zip_sub_self (v : ndarray) : zip_sub v v = zeros (length v).
Proof.
  induction v as [|x v IH]; simpl; [reflexivity|].
  unfold zeros in *; simpl; rewrite IH; f_equal; lra.
Qed.

Lemma sqnorm_zeros (n : nat) : sqnorm (zeros n) = 0.
Proof.
  induction n as [|n IH]; simpl; [reflexivity|].
  unfold zeros in IH; rewrite IH; lra.
Qed.

Lemma subtract_same_length (xs ys : ndarray) :
  length xs = length ys -> subtract xs ys = Some (zip_sub xs ys).
Proof. intros H; unfold subtract; rewrite H, Nat.eqb_refl; reflexivity. Qed.

Lemma norm_self_difference (v : ndarray) :
  exists d, subtract v v = Some d /\ norm d = 0.
Proof.
  exists (zip_sub v v); split; [apply subtract_same_length; reflexivity|].
  unfold norm; rewrite zip_sub_self, sqnorm_zeros; apply sqrt_0.
Qed.

End NumpyFacts.

Section AnomalyTrackerFacts.

Import AnomalyTracker.

Lemma update_anomaly_params (s : t) (o p : list R) :
  let s' := fst (update_anomaly s o p) in
  tau s' = tau s /\ g0 s' = g0 s /\ alpha s' = alpha s.
Proof.
  unfold update_anomaly; destruct (Numpy.subtract o p); simpl; auto.
Qed.

Lemma update_anomaly_same_vector (s : t) (v : list R) :
  update_anomaly s v v =
    (set_a_anom s ((1 - tau s) * a_anom s), Returned ((1 - tau s) * a_anom s)).
Proof.
  unfold update_anomaly.
  destruct (norm_self_difference v) as [d [Hd Hn]].
  rewrite Hd; cbv zeta; rewrite Hn.
  replace ((1 - tau s) * a_anom s + tau s * 0) with ((1 - tau s) * a_anom s) by lra.
  reflexivity.
Qed.

Lemma g_min_closed_form (s : t) :
  0 <= a_anom s -> 0 < alpha s ->
  calculate_g_min s = 1 - (1 - g0 s) * alpha s / (a_anom s + alpha s).
Proof. intros Ha Hal; unfold calculate_g_min; cbv zeta; field; lra. Qed.

End AnomalyTrackerFacts.

Section DynamicThreshold.

Import AnomalyTracker.

Lemma fraction_range (a al : R) :
  0 <= a -> 0 < al -> 0 <= a / (a + al) < 1.
Proof.
  intros Ha Hal.
  assert (Hd : 0 < a + al) by lra.
  split.
  - apply Rmult_le_pos; [assumption | left; apply Rinv_0_lt_compat; assumption].
  - apply Rmult_lt_reg_r with (a + al); [assumption|].
    unfold Rdiv; rewrite Rmult_assoc, Rinv_l by lra; lra.
Qed.

Lemma fraction_increasing (a b al : R) :
  0 <= a -> a < b -> 0 < al -> a / (a + al) < b / (b + al).
Proof.
  intros Ha Hab Hal.
  assert (Hda : 0 < a + al) by lra.
  assert (Hdb : 0 < b + al) by lra.
  apply Rmult_lt_reg_r with ((a + al) * (b + al)).
  - apply Rmult_lt_0_compat; assumption.
  - replace (a / (a + al) * ((a + al) * (b + al))) with (a * (b + al))
      by (field; lra).
    replace (b / (b + al) * ((a + al) * (b + al))) with (b * (a + al))
      by (field; lra).
    nra.
Qed.

(** The threshold as a formula over the reals: for [alpha > 0] and [g0] in
    [[0,1)], [g0 + (1 - g0) * a / (a + alpha)] lies in [[g0, 1)] for every
    [a >= 0], is never equal to 1, and is strictly increasing in [a]. *)
Theorem calculate_g_min_range_and_monotone :
  forall tau g0 alpha : R,
    0 < alpha -> 0 <= g0 < 1 ->
    (forall a, 0 <= a ->
       g0 <= calculate_g_min (mk tau g0 alpha a) < 1 /\
       calculate_g_min (mk tau g0 alpha a) <> 1) /\
    (forall a b, 0 <= a -> a < b ->
       calculate_g_min (mk tau g0 alpha a) < calculate_g_min (mk tau g0 alpha b)).
Proof.
  intros tau0 g al Hal Hg; split.
  - intros a Ha; unfold calculate_g_min; simpl.
    destruct (fraction_range a al Ha Hal) as [H0 H1].
    assert (Hb : g <= g + (1 - g) * (a / (a + al)) < 1) by nra.
    split; [exact Hb | lra].
  - intros a b Ha Hab; unfold calculate_g_min; simpl.
    pose proof (fraction_increasing a b al Ha Hab Hal) as Hf.
    nra.
Qed.

Lemma calculate_g_min_range_and_monotone_witness :
  (0 < 1 /\ 0 <= 0.4 < 1) /\
  g0 (init 0.2 0.4 1) <= calculate_g_min (mk 0.2 0.4 1 2) < 1 /\
  calculate_g_min (mk 0.2 0.4 1 2) < calculate_g_min (mk 0.2 0.4 1 3).
Proof.
  assert (Hal : 0 < 1) by lra.
  assert (Hg : 0 <= 0.4 < 1) by lra.
  destruct (calculate_g_min_range_and_monotone 0.2 0.4 1 Hal Hg) as [Hr Hm].
  split; [split; assumption|].
  split.
  - apply (Hr 2); lra.
  - apply (Hm 2 3); lra.
Defined.

End DynamicThreshold.

Section DynamicThresholdBinary64.

Import PrimFloat.
Set Warnings "-inexact-float".

(** C5.  The code does not keep the property in binary64.  With the
    defaults [tau = 0.2], [g0 = 0.4], [alpha = 1.0]: one [update_anomaly]
    from score 0 with observed [[5e16, 0, 0, 0]] and predicted
    [[0, 0, 0, 0]] gives the score [1e16], and there [calculate_g_min]
    returns exactly 1.0, not a value below 1; and between the score
    [0x1.e6eee31975f66p+0] and the next float above it the threshold
    decreases. *)
Theorem calculate_g_min_binary64_reaches_one :
  Binary64.update_anomaly 0.2%float 0%float
    [5e16%float; 0%float; 0%float; 0%float]
    [0%float; 0%float; 0%float; 0%float] = 1e16%float /\
  Binary64.calculate_g_min 0.4%float 1%float 1e16%float = 1%float /\
  PrimFloat.ltb 0x1.e6eee31975f66p+0%float
                (PrimFloat.next_up 0x1.e6eee31975f66p+0%float) = true /\
  PrimFloat.ltb
    (Binary64.calculate_g_min 0.4%float 1%float
       (PrimFloat.next_up 0x1.e6eee31975f66p+0%float))
    (Binary64.calculate_g_min 0.4%float 1%float 0x1.e6eee31975f66p+0%float)
  = true.
Proof. repeat split; vm_compute; reflexivity. Qed.

End DynamicThresholdBinary64.

Section Forgetting.

Import AnomalyTracker.

(** C6.  Pure forgetting: [N] successive [update_anomaly] calls whose
    observed vector equals the predicted one (distance 0) take the score
    [a_anom] to [a_anom * (1 - tau)^N]; this holds for every tracker, in
    particular for [a_anom >= 0] and [tau] in (0,1). *)
Theorem pure_forgetting :
  forall (vs : list (list R)) (s : t),
    a_anom (updates s (map (fun v => (v, v)) vs))
    = a_anom s * (1 - tau s) ^ length vs.
Proof.
  induction vs as [|v vs IH]; intros s; simpl.
  - lra.
  - rewrite IH, update_anomaly_same_vector; simpl. lra.
Qed.

End Forgetting.

Section PhaseGScenario.

Import AnomalyTracker.

Lemma lie_distance :
  Numpy.subtract [0.1; 0.1; 0.1; 0.1] [0.8; 0.8; 0.8; 0.8]
    = Some [0.1 - 0.8; 0.1 - 0.8; 0.1 - 0.8; 0.1 - 0.8]
  /\ Numpy.norm [0.1 - 0.8; 0.1 - 0.8; 0.1 - 0.8; 0.1 - 0.8] = 1.4.
Proof.
  split; [reflexivity|].
  unfold Numpy.norm; simpl.
  replace ((0.1 - 0.8) * (0.1 - 0.8) +
           ((0.1 - 0.8) * (0.1 - 0.8) +
            ((0.1 - 0.8) * (0.1 - 0.8) + ((0.1 - 0.8) * (0.1 - 0.8) + 0))))
    with (1.4 * 1.4) by lra.
  apply sqrt_square; lra.
Qed.

Lemma lie_phase_score : a_anom lie_phase = 0.941248.
Proof.
  unfold lie_phase; simpl.
  rewrite (proj2 lie_distance); lra.
Qed.

Lemma lie_phase_params : g0 lie_phase = 0.4 /\ alpha lie_phase = 1.
Proof.
  unfold lie_phase; simpl; split; reflexivity.
Qed.

Lemma lie_phase_g_min :
  calculate_g_min lie_phase = 0.4 + (1 - 0.4) * (0.941248 / (0.941248 + 1)).
Proof.
  unfold calculate_g_min; cbv zeta.
  destruct lie_phase_params as [-> ->]; rewrite lie_phase_score; reflexivity.
Qed.

(** C7, as the spec states it, fails: after the five updates the score is
    more than 0.4 away from 1.3417 and the threshold more than 0.05 away
    from 0.744. *)
Lemma lie_phase_not_1_3417 :
  ~ approx (a_anom lie_phase) 1.3417 0.4 /\
  ~ approx (calculate_g_min lie_phase) 0.744 0.05.
Proof.
  rewrite lie_phase_g_min, lie_phase_score; unfold approx; split; intros H.
  - unfold Rabs in H; destruct (Rcase_abs _) in H; lra.
  - unfold Rabs in H; destruct (Rcase_abs _) in H; lra.
Qed.

(** C7, amended.  With [tau = 0.2], [g0 = 0.4], [alpha = 1] and initial
    score 0, five updates with observed [0.1,0.1,0.1,0.1] and predicted
    [0.8,0.8,0.8,0.8] (distance 1.4 each) give
    [a_anom = 1.4 * (1 - 0.8^5) = 0.941248], about 0.9412, and a threshold
    [g_min] of about 0.691. *)
Theorem lie_phase_values :
  a_anom lie_phase = 1.4 * (1 - 0.8 ^ 5) /\
  approx (a_anom lie_phase) 0.9412 0.0001 /\
  approx (calculate_g_min lie_phase) 0.691 0.001.
Proof.
  rewrite lie_phase_g_min, lie_phase_score; unfold approx.
  split; [lra|].
  split; apply Rabs_le; lra.
Qed.

End PhaseGScenario.

Section Dimensions.

Import AnomalyTracker.

Lemma subtract_broadcastable (xs ys : list R) :
  length xs = length ys \/ length xs = 1%nat \/ length ys = 1%nat ->
  exists d, Numpy.subtract xs ys = Some d.
Proof.
  intros H; unfold Numpy.subtract.
  destruct (Nat.eqb (length xs) (length ys)) eqn:E; [eauto|].
  apply Nat.eqb_neq in E.
  destruct H as [H | [H | H]]; [contradiction | |].
  - destruct xs as [|x [|x' xs]]; try discriminate; eauto.
  - destruct ys as [|y [|y' ys]]; try discriminate.
    destruct xs as [|x [|x' xs]]; eauto.
Qed.

Lemma subtract_incompatible (xs ys : list R) :
  length xs <> length ys -> length xs <> 1%nat -> length ys <> 1%nat ->
  Numpy.subtract xs ys = None.
Proof.
  intros Hne Hx Hy; unfold Numpy.subtract.
  apply Nat.eqb_neq in Hne; rewrite Hne.
  destruct xs as [|x [|x' xs]]; destruct ys as [|y [|y' ys]];
    simpl in *; try reflexivity; congruence.
Qed.

(** C4, as the spec states it, fails: a one-element observed vector against
    a four-element predicted vector is broadcast and the score is updated,
    and two three-element vectors are accepted as well; neither call
    raises. *)
Lemma update_anomaly_accepts_other_dimensions :
  let s := init 0.2 0.4 1 in
  (length [0.1] <> length [0.8; 0.8; 0.8; 0.8] /\
   update_anomaly s [0.1] [0.8; 0.8; 0.8; 0.8]
     = (set_a_anom s 0.28, Returned 0.28) /\
   a_anom (set_a_anom s 0.28) <> a_anom s) /\
  (length [0; 0; 0] <> 4%nat /\
   update_anomaly s [0; 0; 0] [0.3; 0.4; 0]
     = (set_a_anom s 0.1, Returned 0.1) /\
   a_anom (set_a_anom s 0.1) <> a_anom s).
Proof.
  cbv zeta; split; (split; [simpl; lia | split; [| simpl; lra]]).
  - unfold update_anomaly; simpl.
    assert (Hn : Numpy.norm [0.1 - 0.8; 0.1 - 0.8; 0.1 - 0.8; 0.1 - 0.8] = 1.4)
      by apply lie_distance.
    rewrite Hn.
    replace ((1 - 0.2) * 0 + 0.2 * 1.4) with 0.28 by lra; reflexivity.
  - unfold update_anomaly; simpl.
    assert (Hn : Numpy.norm [0 - 0.3; 0 - 0.4; 0 - 0] = 0.5).
    { unfold Numpy.norm; simpl.
      replace ((0 - 0.3) * (0 - 0.3) + ((0 - 0.4) * (0 - 0.4) + ((0 - 0) * (0 - 0) + 0)))
        with (0.5 * 0.5) by lra.
      apply sqrt_square; lra. }
    rewrite Hn.
    replace ((1 - 0.2) * 0 + 0.2 * 0.5) with 0.1 by lra; reflexivity.
Qed.

(** C4, amended.  [update_anomaly] has no dimension check of its own.
    Whenever the two vectors have the same length (4 or not), or one of
    them has length 1 and is broadcast, the call returns and the score
    becomes [(1 - tau) * a_anom + tau * distance].  When the lengths differ
    and neither is 1, the subtraction raises [ValueError] before the score
    is assigned, and the tracker is left as it was. *)
Theorem update_anomaly_by_shape :
  forall (s : t) (obs pred : list R),
    (length obs = length pred \/ length obs = 1%nat \/ length pred = 1%nat ->
     exists d,
       Numpy.subtract obs pred = Some d /\
       update_anomaly s obs pred
       = (set_a_anom s ((1 - tau s) * a_anom s + tau s * Numpy.norm d),
          Returned ((1 - tau s) * a_anom s + tau s * Numpy.norm d))) /\
    (length obs <> length pred -> length obs <> 1%nat -> length pred <> 1%nat ->
     update_anomaly s obs pred = (s, Raised ValueError)).
Proof.
  intros s obs pred; split.
  - intros H; destruct (subtract_broadcastable obs pred H) as [d Hd].
    exists d; split; [assumption|].
    unfold update_anomaly; rewrite Hd; reflexivity.
  - intros H1 H2 H3; unfold update_anomaly.
    rewrite (subtract_incompatible obs pred H1 H2 H3); reflexivity.
Qed.

Lemma update_anomaly_by_shape_witness :
  let s := init 0.2 0.4 1 in
  update_anomaly s [0.1; 0.2; 0.3] [0.8; 0.8; 0.8; 0.8] = (s, Raised ValueError)
  /\ exists d,
       Numpy.subtract [0.5; 0.5] [0.5; 0.5] = Some d /\
       update_anomaly s [0.5; 0.5] [0.5; 0.5]
       = (set_a_anom s ((1 - tau s) * a_anom s + tau s * Numpy.norm d),
          Returned ((1 - tau s) * a_anom s + tau s * Numpy.norm d)).
Proof.
  cbv zeta; split.
  - apply (update_anomaly_by_shape (init 0.2 0.4 1)
             [0.1; 0.2; 0.3] [0.8; 0.8; 0.8; 0.8]); simpl; lia.
  - apply (update_anomaly_by_shape (init 0.2 0.4 1) [0.5; 0.5] [0.5; 0.5]).
    left; reflexivity.
Defined.

End Dimensions.

(** * Properties of the miracle decay manager *)

Section TickSteps.

Import MiracleDecay.

Lemma phase_eqb_eq (p q : MiraclePhase) : phase_eqb p q = true <-> p = q.
Proof. destruct p, q; simpl; split; intros H; congruence. Qed.

Lemma phase_eqb_pending (p : MiraclePhase) :
  p <> PENDING -> phase_eqb p PENDING = false.
Proof. destruct p; simpl; congruence. Qed.

Lemma same_config_refl (m : MiracleDecayManager) : same_config m m.
Proof. repeat split. Qed.

Lemma same_config_trans (a b c : MiracleDecayManager) :
  same_config a b -> same_config b c -> same_config a c.
Proof.
  unfold same_config; intros (H1 & H2 & H3 & H4) (K1 & K2 & K3 & K4).
  repeat split; congruence.
Qed.

Lemma tick_not_pending (m : MiracleDecayManager) (i : list R) (d : R) :
  phase (state m) <> PENDING ->
  tick m i d = (m, ActNone (value (phase (state m)))).
Proof.
  intros H; unfold tick; cbv zeta.
  rewrite (phase_eqb_pending _ H); reflexivity.
Qed.

Lemma tick_recurrence (m : MiracleDecayManager) (i : list R) (d : R) :
  phase (state m) = PENDING -> theta_cancel m < d ->
  let turns := (turns_elapsed (state m) + 1)%Z in
  let is_hijack := (turns <=? k_max m / 2)%Z in
  let ph := if is_hijack then HIJACK_DETECTED else CANCELLED in
  let e := EvCancelled turns d (theta_cancel m) is_hijack true in
  tick m i d =
    (with_state_history m
       (mkState ph turns (initial_integrals (state m))
                (decay_log (state m) ++ [e]))
       (history m ++ [e]),
     ActRollback (value ph) is_hijack).
Proof.
  intros Hp Hd; unfold tick; cbv zeta.
  rewrite Hp; simpl; rewrite (Rgtb_true _ _ Hd); reflexivity.
Qed.

Lemma tick_monitoring (m : MiracleDecayManager) (i : list R) (d : R) :
  phase (state m) = PENDING -> d <= theta_cancel m ->
  (turns_elapsed (state m) + 1 < k_max m)%Z ->
  let turns := (turns_elapsed (state m) + 1)%Z in
  let f := exp (- kappa m * IZR turns) in
  let e := EvTick turns d (round4 f)
                  (Numpy.scale (initial_integrals (state m)) f) in
  tick m i d =
    (with_state m
       (mkState PENDING turns (initial_integrals (state m))
                (decay_log (state m) ++ [e])),
     ActMonitoring (k_max m - turns) (round4 f)).
Proof.
  intros Hp Hd Hk; unfold tick; cbv zeta.
  rewrite Hp; simpl; rewrite (Rgtb_false _ _ Hd).
  destruct (Z.leb_spec (k_max m) (turns_elapsed (state m) + 1)); [lia|].
  reflexivity.
Qed.

Lemma tick_confirmation (m : MiracleDecayManager) (i : list R) (d : R) :
  phase (state m) = PENDING -> d <= theta_cancel m ->
  (k_max m <= turns_elapsed (state m) + 1)%Z ->
  let turns := (turns_elapsed (state m) + 1)%Z in
  let f := exp (- kappa m * IZR turns) in
  let e := EvTick turns d (round4 f)
                  (Numpy.scale (initial_integrals (state m)) f) in
  let after := Numpy.scale (initial_integrals (state m)) (1 - rho m) in
  tick m i d =
    (with_state_history m
       (mkState CONFIRMED turns (initial_integrals (state m))
                (decay_log (state m) ++ [e]))
       (history m ++ [EvConfirmed (initial_integrals (state m)) after (rho m)]),
     ActApplyReset after (initial_integrals (state m)) after).
Proof.
  intros Hp Hd Hk; unfold tick; cbv zeta.
  rewrite Hp; simpl; rewrite (Rgtb_false _ _ Hd).
  destruct (Z.leb_spec (k_max m) (turns_elapsed (state m) + 1)); [|lia].
  reflexivity.
Qed.

(** A tick that leaves the manager [PENDING] was a monitoring tick. *)
Lemma tick_stays_pending (m : MiracleDecayManager) (i : list R) (d : R) :
  phase (state m) = PENDING ->
  phase (state (fst (tick m i d))) = PENDING ->
  turns_elapsed (state (fst (tick m i d))) = (turns_elapsed (state m) + 1)%Z /\
  initial_integrals (state (fst (tick m i d))) = initial_integrals (state m) /\
  history (fst (tick m i d)) = history m /\
  same_config m (fst (tick m i d)).
Proof.
  intros Hp; unfold tick; cbv zeta; rewrite Hp; simpl.
  destruct (Rgtb d (theta_cancel m)).
  - destruct (_ <=? _)%Z; simpl; discriminate.
  - destruct (_ <=? _)%Z; simpl; [discriminate|].
    intros _; repeat split.
Qed.

Lemma ticks_not_pending (cs : list (list R * R)) (m : MiracleDecayManager) :
  phase (state m) <> PENDING -> fst (ticks m cs) = m.
Proof.
  induction cs as [|[i d] cs IH]; intros H; simpl; [reflexivity|].
  rewrite (tick_not_pending m i d H).
  specialize (IH H); destruct (ticks m cs); simpl in *; assumption.
Qed.

Lemma ticks_cons (m : MiracleDecayManager) (i : list R) (d : R)
      (cs : list (list R * R)) :
  ticks m ((i, d) :: cs) =
    (fst (ticks (fst (tick m i d)) cs),
     snd (tick m i d) :: snd (ticks (fst (tick m i d)) cs)).
Proof.
  simpl; destruct (tick m i d) as [m1 r]; simpl.
  destruct (ticks m1 cs); reflexivity.
Qed.

(** While a run of ticks ends [PENDING], every tick of it counted. *)
Lemma ticks_stay_pending (cs : list (list R * R)) :
  forall m,
    phase (state m) = PENDING ->
    phase (state (fst (ticks m cs))) = PENDING ->
    turns_elapsed (state (fst (ticks m cs)))
      = (turns_elapsed (state m) + Z.of_nat (length cs))%Z /\
    initial_integrals (state (fst (ticks m cs))) = initial_integrals (state m) /\
    history (fst (ticks m cs)) = history m /\
    same_config m (fst (ticks m cs)).
Proof.
  induction cs as [|[i d] cs IH]; intros m Hp Hend.
  - simpl; repeat split; lia.
  - rewrite ticks_cons in *; cbn [fst] in *.
    assert (Hmid : phase (state (fst (tick m i d))) = PENDING).
    { destruct (phase_eqb (phase (state (fst (tick m i d)))) PENDING) eqn:E.
      - apply phase_eqb_eq; assumption.
      - assert (Hn : phase (state (fst (tick m i d))) <> PENDING).
        { intros K; apply phase_eqb_eq in K; congruence. }
        rewrite (ticks_not_pending cs _ Hn) in Hend; contradiction. }
    destruct (tick_stays_pending m i d Hp Hmid) as (T1 & I1 & H1 & C1).
    destruct (IH _ Hmid Hend) as (T2 & I2 & H2 & C2).
    repeat split; try congruence.
    + rewrite T2, T1; cbn [length]; lia.
    + apply (same_config_trans _ _ _ C1 C2).
    + apply (same_config_trans _ _ _ C1 C2).
    + apply (same_config_trans _ _ _ C1 C2).
    + apply (same_config_trans _ _ _ C1 C2).
Qed.

End TickSteps.

Section Admission.

Import MiracleDecay.

Lemma attempt_pending (m : MiracleDecayManager) (i : list R) (g gm v : R) :
  phase (state m) = PENDING ->
  attempt_miracle m i g gm v
  = (m, AlreadyPending (k_max m - turns_elapsed (state m))).
Proof. intros H; unfold attempt_miracle; rewrite H; reflexivity. Qed.

Lemma attempt_accepted (m : MiracleDecayManager) (i : list R) (g gm v : R) :
  phase (state m) <> PENDING -> gm < g -> 0.7 < v ->
  attempt_miracle m i g gm v
  = (with_state m (mkState PENDING 0 i []), Pending g gm (k_max m)).
Proof.
  intros H Hg Hv; unfold attempt_miracle.
  rewrite (phase_eqb_pending _ H), (Rgtb_true _ _ Hg), Rgtb_true by lra.
  reflexivity.
Qed.

Lemma attempt_rejected (m : MiracleDecayManager) (i : list R) (g gm v : R) :
  phase (state m) <> PENDING -> g <= gm \/ v <= 0.7 ->
  attempt_miracle m i g gm v = (m, Rejected g gm v).
Proof.
  intros H Hc; unfold attempt_miracle; rewrite (phase_eqb_pending _ H).
  destruct Hc as [Hc | Hc].
  - rewrite (Rgtb_false _ _ Hc); reflexivity.
  - rewrite (Rgtb_false v) by lra; rewrite andb_false_r; reflexivity.
Qed.

Lemma attempt_history (m : MiracleDecayManager) (i : list R) (g gm v : R) :
  history (fst (attempt_miracle m i g gm v)) = history m.
Proof.
  unfold attempt_miracle.
  destruct (phase_eqb _ _); [reflexivity|].
  destruct (_ && _); reflexivity.
Qed.

End Admission.

Section WindowCompletion.

Import MiracleDecay.

(** Ticks at or below the threshold, fewer than are left in the window. *)
Lemma ticks_quiet (cs : list (list R * R)) :
  forall m,
    phase (state m) = PENDING ->
    Forall (fun c => snd c <= theta_cancel m) cs ->
    (turns_elapsed (state m) + Z.of_nat (length cs) < k_max m)%Z ->
    phase (state (fst (ticks m cs))) = PENDING /\
    length (snd (ticks m cs)) = length cs /\
    Forall (fun r => action r = "monitoring"%string /\
                     result_phase r = "pending"%string /\
                     new_integrals r = None)
           (snd (ticks m cs)).
Proof.
  induction cs as [|[i d] cs IH]; intros m Hp Hq Hk.
  - simpl; repeat split; [assumption | constructor].
  - rewrite ticks_cons; cbn [fst snd length] in *.
    inversion Hq as [|c cs' Hd Hq' E]; subst; cbn [snd] in Hd.
    assert (Hlt : (turns_elapsed (state m) + 1 < k_max m)%Z) by lia.
    pose proof (tick_monitoring m i d Hp Hd Hlt) as Ht; cbv zeta in Ht.
    rewrite Ht; cbn [fst snd].
    match goal with |- context [ticks ?m1 cs] =>
      destruct (IH m1) as (P & L & F) end.
    + reflexivity.
    + exact Hq'.
    + simpl; lia.
    + repeat split; [exact P | f_equal; exact L |].
      constructor; [repeat split | exact F].
Qed.


Lemma Forall_prefix {A : Type} (P : A -> Prop) (n : nat) (l : list A) :
  Forall P l -> Forall P (firstn n l).
Proof.
  intros H; rewrite <- (firstn_skipn n l) in H.
  apply Forall_app in H; tauto.
Qed.

Lemma ticks_app (a b : list (list R * R)) :
  forall m,
    ticks m (a ++ b) =
      (fst (ticks (fst (ticks m a)) b),
       snd (ticks m a) ++ snd (ticks (fst (ticks m a)) b)).
Proof.
  induction a as [|[i d] a IH]; intros m.
  - simpl; destruct (ticks m b); reflexivity.
  - rewrite <- app_comm_cons, !ticks_cons, IH; reflexivity.
Qed.

(** C1.  For every manager with [k_max >= 1] (and every [rho], in
    particular in [[0,1]]) and every baseline vector: from the idle phase
    [NONE], an [attempt_miracle] whose admission conditions hold returns
    ["pending"] and captures the baseline; [k_max] ticks that all have
    [d_dot <= theta_cancel] then leave the phase [PENDING] after each of the
    first [k_max - 1] ticks (each answers ["monitoring"], without integrals)
    and make it [CONFIRMED] on the [k_max]-th, which returns as
    [new_integrals] the baseline multiplied elementwise by [1 - rho]; the
    history gains exactly one record, the confirmation. *)
Theorem window_completion :
  forall (m : MiracleDecayManager) (baseline : list R)
         (g_value g_min v_consistency : R) (cs : list (list R * R)),
    (1 <= k_max m)%Z ->
    get_phase m = NONE ->
    g_min < g_value -> 0.7 < v_consistency ->
    Z.of_nat (length cs) = k_max m ->
    Forall (fun c => snd c <= theta_cancel m) cs ->
    let m1 := fst (attempt_miracle m baseline g_value g_min v_consistency) in
    let reduced := map (fun x => x * (1 - rho m)) baseline in
    snd (attempt_miracle m baseline g_value g_min v_consistency)
      = Pending g_value g_min (k_max m) /\
    get_phase m1 = PENDING /\
    initial_integrals (state m1) = baseline /\
    (forall n, (n < length cs)%nat ->
               get_phase (fst (ticks m1 (firstn n cs))) = PENDING) /\
    get_phase (fst (ticks m1 cs)) = CONFIRMED /\
    (exists pre,
        snd (ticks m1 cs) = pre ++ [ActApplyReset reduced baseline reduced] /\
        length pre = (length cs - 1)%nat /\
        Forall (fun r => action r = "monitoring"%string /\
                         result_phase r = "pending"%string /\
                         new_integrals r = None) pre) /\
    get_history (fst (ticks m1 cs))
      = get_history m ++ [EvConfirmed baseline reduced (rho m)].
Proof.
  intros m baseline g gm v cs Hk Hidle Hg Hv Hlen Hq m1 reduced.
  unfold get_phase, get_history in *.
  assert (Hnp : phase (state m) <> PENDING) by (rewrite Hidle; discriminate).
  assert (Hm1 : m1 = with_state m (mkState PENDING 0 baseline [])).
  { unfold m1; rewrite (attempt_accepted m baseline g gm v Hnp Hg Hv); reflexivity. }
  rewrite (attempt_accepted m baseline g gm v Hnp Hg Hv); cbn [snd].
  split; [reflexivity|].
  split; [rewrite Hm1; reflexivity|].
  split; [rewrite Hm1; reflexivity|].
  assert (Hp1 : phase (state m1) = PENDING) by (rewrite Hm1; reflexivity).
  assert (Ht1 : turns_elapsed (state m1) = 0%Z) by (rewrite Hm1; reflexivity).
  assert (Hth : theta_cancel m1 = theta_cancel m) by (rewrite Hm1; reflexivity).
  assert (Hk1 : k_max m1 = k_max m) by (rewrite Hm1; reflexivity).
  assert (Hq1 : Forall (fun c => snd c <= theta_cancel m1) cs)
    by (rewrite Hth; exact Hq).
  split.
  { intros n Hn.
    apply (ticks_quiet (firstn n cs) m1 Hp1).
    - apply Forall_prefix; exact Hq1.
    - rewrite length_firstn, Ht1, Hk1; lia. }
  assert (Hne : cs <> []) by (intros ->; simpl in Hlen; lia).
  destruct (exists_last Hne) as (pre & [i d] & Hcs).
  assert (Hlp : length cs = S (length pre))
    by (rewrite Hcs, length_app; simpl; lia).
  assert (Hqp : Forall (fun c => snd c <= theta_cancel m1) pre /\
                d <= theta_cancel m1).
  { rewrite Hcs in Hq1; apply Forall_app in Hq1; destruct Hq1 as [A B].
    split; [exact A | inversion B; assumption]. }
  destruct Hqp as [Hqp Hd].
  assert (Hkp : (turns_elapsed (state m1) + Z.of_nat (length pre) < k_max m1)%Z)
    by (rewrite Ht1, Hk1; lia).
  destruct (ticks_quiet pre m1 Hp1 Hqp Hkp) as (Pp & Lp & Fp).
  destruct (ticks_stay_pending pre m1 Hp1 Pp) as (Tp & Ip & Hp & Cp).
  destruct Cp as (Ck & Cth & Crho & Ckap).
  set (mp := fst (ticks m1 pre)) in *.
  assert (Hdp : d <= theta_cancel mp) by (rewrite Cth; exact Hd).
  assert (Hkc : (k_max mp <= turns_elapsed (state mp) + 1)%Z)
    by (rewrite Ck, Tp, Ht1, Hk1; lia).
  pose proof (tick_confirmation mp i d Pp Hdp Hkc) as Hc; cbv zeta in Hc.
  assert (Hib : initial_integrals (state mp) = baseline)
    by (rewrite Ip, Hm1; reflexivity).
  assert (Hrho : rho mp = rho m) by (rewrite Crho, Hm1; reflexivity).
  rewrite Hib, Hrho in Hc.
  rewrite Hcs, ticks_app; cbn [fst snd]; fold mp.
  simpl ticks; rewrite Hc; cbn [fst snd].
  split; [reflexivity|].
  split.
  - exists (snd (ticks m1 pre)); repeat split.
    + rewrite Lp, length_app; simpl; lia.
    + exact Fp.
  - simpl; rewrite Hp, Hm1; reflexivity.
Qed.

End WindowCompletion.

Section Scenarios.

Import MiracleDecay.

Lemma window_completion_witness :
  let m := init 5 0.05 0.3 0.5 in
  let baseline := [180; 260; 310; 190] in
  let cs := [(baseline, 0.02); (baseline, -0.01); (baseline, 0.01);
             (baseline, -0.02); (baseline, 0)] in
  let m1 := fst (attempt_miracle m baseline 0.85 0.4 0.9) in
  get_phase (fst (ticks m1 cs)) = CONFIRMED /\
  get_history (fst (ticks m1 cs))
    = [EvConfirmed baseline (map (fun x => x * (1 - 0.3)) baseline) 0.3].
Proof.
  cbv zeta.
  assert (H1 : (1 <= k_max (init 5 0.05 0.3 0.5))%Z) by (simpl; lia).
  assert (H2 : get_phase (init 5 0.05 0.3 0.5) = NONE) by reflexivity.
  assert (H3 : 0.4 < 0.85) by lra.
  assert (H4 : 0.7 < 0.9) by lra.
  pose proof (window_completion (init 5 0.05 0.3 0.5) [180; 260; 310; 190]
                0.85 0.4 0.9
                [([180; 260; 310; 190], 0.02); ([180; 260; 310; 190], -0.01);
                 ([180; 260; 310; 190], 0.01); ([180; 260; 310; 190], -0.02);
                 ([180; 260; 310; 190], 0)]
                H1 H2 H3 H4) as H.
  cbv zeta in H.
  destruct H as (_ & _ & _ & _ & Hc & _ & Hh).
  - reflexivity.
  - repeat constructor; simpl; lra.
  - split; [exact Hc | exact Hh].
Defined.

End Scenarios.

Section NoOp.

Import MiracleDecay.

(** C8.  In every state whose phase is not [PENDING], [tick] changes
    nothing: the manager after the call is the manager before it (phase,
    [turns_elapsed], per-cycle log and history included), and the returned
    dictionary carries the current phase with action ["none"]. *)
Theorem tick_outside_pending_is_noop :
  forall (m : MiracleDecayManager) (integrals : list R) (d_dot : R),
    get_phase m <> PENDING ->
    let m' := fst (tick m integrals d_dot) in
    let r := snd (tick m integrals d_dot) in
    m' = m /\
    get_phase m' = get_phase m /\
    turns_elapsed (state m') = turns_elapsed (state m) /\
    decay_log (state m') = decay_log (state m) /\
    get_history m' = get_history m /\
    result_phase r = value (get_phase m) /\
    action r = "none"%string /\
    new_integrals r = None.
Proof.
  intros m i d H; unfold get_phase in H.
  rewrite (tick_not_pending m i d H); cbv zeta; cbn [fst snd].
  repeat split.
Qed.

Lemma tick_outside_pending_is_noop_witness :
  let m := init 5 0.05 0.3 0.5 in
  get_phase m <> PENDING /\
  fst (tick m [180; 260; 310; 190] 0.08) = m /\
  action (snd (tick m [180; 260; 310; 190] 0.08)) = "none"%string.
Proof.
  cbv zeta.
  assert (H : get_phase (init 5 0.05 0.3 0.5) <> PENDING) by (simpl; discriminate).
  pose proof (tick_outside_pending_is_noop
                (init 5 0.05 0.3 0.5) [180; 260; 310; 190] 0.08 H) as K.
  cbv zeta in K.
  destruct K as (K1 & _ & _ & _ & _ & _ & K2 & _).
  split; [exact H | split; [exact K1 | exact K2]].
Defined.

End NoOp.

Section EarlyAbort.

Import MiracleDecay.

(** C2.  In every [PENDING] cycle (admission, then any ticks after which
    the phase is still [PENDING]), a tick with [d_dot > theta_cancel] on
    turn [m], the [m]-th tick since admission, makes the phase
    [HIJACK_DETECTED] when [m <= k_max // 2] and [CANCELLED] when
    [m > k_max // 2].  In both cases nothing is applied to the integrals:
    the returned dictionary is a ["rollback"] without [new_integrals], the
    captured baseline is as it was, and the record appended to the history
    carries [integrals_unchanged = True]. *)
Theorem recurrence_aborts_without_change :
  forall (m : MiracleDecayManager) (baseline : list R)
         (g_value g_min v_consistency : R) (pre : list (list R * R))
         (integrals : list R) (d_dot : R),
    get_phase m <> PENDING ->
    g_min < g_value -> 0.7 < v_consistency ->
    let m1 := fst (attempt_miracle m baseline g_value g_min v_consistency) in
    let mp := fst (ticks m1 pre) in
    get_phase mp = PENDING ->
    theta_cancel m < d_dot ->
    let turn := (Z.of_nat (length pre) + 1)%Z in
    let m' := fst (tick mp integrals d_dot) in
    let r := snd (tick mp integrals d_dot) in
    ((turn <= k_max m / 2)%Z -> get_phase m' = HIJACK_DETECTED) /\
    ((turn > k_max m / 2)%Z -> get_phase m' = CANCELLED) /\
    action r = "rollback"%string /\
    result_phase r = value (get_phase m') /\
    new_integrals r = None /\
    initial_integrals (state m') = baseline /\
    get_history m'
      = get_history m ++
          [EvCancelled turn d_dot (theta_cancel m)
                       (turn <=? k_max m / 2)%Z true].
Proof.
  intros m baseline g gm v pre i d Hnp Hg Hv m1 mp Hpp Hd turn m' r.
  unfold get_phase, get_history in *.
  assert (Hm1 : m1 = with_state m (mkState PENDING 0 baseline [])).
  { unfold m1; rewrite (attempt_accepted m baseline g gm v Hnp Hg Hv); reflexivity. }
  assert (Hp1 : phase (state m1) = PENDING) by (rewrite Hm1; reflexivity).
  destruct (ticks_stay_pending pre m1 Hp1 Hpp) as (T & I & H & (Ck & Cth & _ & _)).
  fold mp in T, I, H, Ck, Cth.
  assert (Tp : (turns_elapsed (state mp) + 1)%Z = turn)
    by (rewrite T, Hm1; unfold turn; simpl; lia).
  assert (Kp : k_max mp = k_max m) by (rewrite Ck, Hm1; reflexivity).
  assert (Thp : theta_cancel mp = theta_cancel m) by (rewrite Cth, Hm1; reflexivity).
  assert (Ip : initial_integrals (state mp) = baseline) by (rewrite I, Hm1; reflexivity).
  assert (Hh : history mp = history m) by (rewrite H, Hm1; reflexivity).
  assert (Hdp : theta_cancel mp < d) by (rewrite Thp; exact Hd).
  pose proof (tick_recurrence mp i d Hpp Hdp) as Ht; cbv zeta in Ht.
  rewrite Tp, Kp, Thp, Ip, Hh in Ht.
  unfold m', r; rewrite Ht; cbn [fst snd]; simpl.
  destruct (Z.leb_spec turn (k_max m / 2)) as [Hle | Hgt].
  - repeat split; try reflexivity; intros; lia.
  - repeat split; try reflexivity; intros; lia.
Qed.

Lemma recurrence_aborts_without_change_witness :
  let m := init 5 0.05 0.3 0.5 in
  let baseline := [180; 260; 310; 190] in
  let m1 := fst (attempt_miracle m baseline 0.85 0.4 0.9) in
  let mp := fst (ticks m1 [(baseline, 0.02); (baseline, 0.01)]) in
  get_phase mp = PENDING /\
  get_phase (fst (tick mp baseline 0.08)) = CANCELLED /\
  new_integrals (snd (tick mp baseline 0.08)) = None.
Proof.
  cbv zeta.
  assert (H1 : get_phase (init 5 0.05 0.3 0.5) <> PENDING) by (simpl; discriminate).
  assert (H2 : 0.4 < 0.85) by lra.
  assert (H3 : 0.7 < 0.9) by lra.
  assert (H4 : get_phase
                 (fst (ticks (fst (attempt_miracle (init 5 0.05 0.3 0.5)
                                     [180; 260; 310; 190] 0.85 0.4 0.9))
                             [([180; 260; 310; 190], 0.02);
                              ([180; 260; 310; 190], 0.01)])) = PENDING).
  { rewrite (attempt_accepted _ _ _ _ _ H1 H2 H3); cbn [fst].
    apply ticks_quiet.
    - reflexivity.
    - repeat constructor; simpl; lra.
    - simpl; lia. }
  assert (H5 : theta_cancel (init 5 0.05 0.3 0.5) < 0.08) by (simpl; lra).
  pose proof (recurrence_aborts_without_change
                (init 5 0.05 0.3 0.5) [180; 260; 310; 190] 0.85 0.4 0.9
                [([180; 260; 310; 190], 0.02); ([180; 260; 310; 190], 0.01)]
                [180; 260; 310; 190] 0.08 H1 H2 H3 H4 H5) as K.
  cbv zeta in K.
  destruct K as (_ & Kc & _ & _ & Kn & _ & _).
  split; [exact H4 | split; [apply Kc; vm_compute; reflexivity | exact Kn]].
Defined.

End EarlyAbort.

Section NewCycles.

Import MiracleDecay.

(** C3, as the spec states it, fails for the terminal phases: a manager
    that reached [CONFIRMED], [CANCELLED] or [HIJACK_DETECTED] by ticks
    admits a new attempt at once, without [reset]. *)
Lemma attempt_after_terminal_starts_cycle :
  let b := [180; 260; 310; 190] in
  let confirmed :=
    fst (tick (fst (attempt_miracle (init 1 0.05 0.3 0.5) b 0.85 0.4 0.9)) b 0) in
  let cancelled :=
    fst (tick (fst (attempt_miracle (init 1 0.05 0.3 0.5) b 0.85 0.4 0.9)) b 0.08) in
  let hijack :=
    fst (tick (fst (attempt_miracle (init 5 0.05 0.3 0.5) b 0.85 0.4 0.9)) b 0.08) in
  (get_phase confirmed = CONFIRMED /\
   result (snd (attempt_miracle confirmed b 0.85 0.4 0.9)) = "pending"%string /\
   get_phase (fst (attempt_miracle confirmed b 0.85 0.4 0.9)) = PENDING) /\
  (get_phase cancelled = CANCELLED /\
   result (snd (attempt_miracle cancelled b 0.85 0.4 0.9)) = "pending"%string /\
   get_phase (fst (attempt_miracle cancelled b 0.85 0.4 0.9)) = PENDING) /\
  (get_phase hijack = HIJACK_DETECTED /\
   result (snd (attempt_miracle hijack b 0.85 0.4 0.9)) = "pending"%string /\
   get_phase (fst (attempt_miracle hijack b 0.85 0.4 0.9)) = PENDING).
Proof.
  cbv zeta.
  assert (Hg : 0.4 < 0.85) by lra.
  assert (Hv : 0.7 < 0.9) by lra.
  assert (Hi : forall k, phase (state (init k 0.05 0.3 0.5)) <> PENDING)
    by (intros k; simpl; discriminate).
  rewrite !(attempt_accepted (init 1 0.05 0.3 0.5) _ _ _ _ (Hi 1%Z) Hg Hv).
  rewrite !(attempt_accepted (init 5 0.05 0.3 0.5) _ _ _ _ (Hi 5%Z) Hg Hv).
  cbn [fst].
  split; [|split].
  - rewrite (tick_confirmation _ [180; 260; 310; 190] 0);
      [| reflexivity | simpl; lra | simpl; lia].
    cbv zeta; cbn [fst].
    rewrite attempt_accepted; [| simpl; discriminate | exact Hg | exact Hv].
    repeat split.
  - rewrite (tick_recurrence _ [180; 260; 310; 190] 0.08);
      [| reflexivity | simpl; lra].
    cbv zeta; cbn [fst].
    rewrite attempt_accepted; [| simpl; discriminate | exact Hg | exact Hv].
    repeat split.
  - rewrite (tick_recurrence _ [180; 260; 310; 190] 0.08);
      [| reflexivity | simpl; lra].
    cbv zeta; cbn [fst].
    rewrite attempt_accepted; [| simpl; discriminate | exact Hg | exact Hv].
    repeat split.
Qed.

(** C3, amended.  [attempt_miracle] refuses a new attempt only while
    [PENDING]: it then returns ["already_pending"] and changes nothing.
    From every other phase, the idle [NONE] and also [CONFIRMED],
    [CANCELLED] and [HIJACK_DETECTED] with no [reset] in between, it tests
    the admission condition: when [g_value > g_min] and
    [v_consistency > 0.7] a new [PENDING] cycle starts (zero turns, the
    given baseline, an empty per-cycle log), otherwise the call returns
    ["rejected"] and changes nothing. *)
Theorem attempt_miracle_by_phase :
  forall (m : MiracleDecayManager) (integrals : list R)
         (g_value g_min v_consistency : R),
    (get_phase m = PENDING ->
     attempt_miracle m integrals g_value g_min v_consistency
     = (m, AlreadyPending (k_max m - turns_elapsed (state m)))) /\
    (get_phase m <> PENDING -> g_min < g_value -> 0.7 < v_consistency ->
     attempt_miracle m integrals g_value g_min v_consistency
     = (with_state m (mkState PENDING 0 integrals []),
        Pending g_value g_min (k_max m))) /\
    (get_phase m <> PENDING -> g_value <= g_min \/ v_consistency <= 0.7 ->
     attempt_miracle m integrals g_value g_min v_consistency
     = (m, Rejected g_value g_min v_consistency)).
Proof.
  intros m i g gm v; unfold get_phase; split; [|split].
  - apply attempt_pending.
  - apply attempt_accepted.
  - apply attempt_rejected.
Qed.

Lemma attempt_miracle_by_phase_witness :
  let m := init 5 0.05 0.3 0.5 in
  let b := [180; 260; 310; 190] in
  let m1 := with_state m (mkState PENDING 0 b []) in
  attempt_miracle m b 0.85 0.4 0.9 = (m1, Pending 0.85 0.4 5) /\
  attempt_miracle m1 b 0.99 0.4 1 = (m1, AlreadyPending (5 - 0)) /\
  attempt_miracle m b 0.3 0.4 0.9 = (m, Rejected 0.3 0.4 0.9).
Proof.
  cbv zeta; split; [|split].
  - apply (attempt_miracle_by_phase (init 5 0.05 0.3 0.5)
             [180; 260; 310; 190] 0.85 0.4 0.9);
      [simpl; discriminate | lra | lra].
  - apply (attempt_miracle_by_phase
             (with_state (init 5 0.05 0.3 0.5)
                         (mkState PENDING 0 [180; 260; 310; 190] []))
             [180; 260; 310; 190] 0.99 0.4 1).
    reflexivity.
  - apply (attempt_miracle_by_phase (init 5 0.05 0.3 0.5)
             [180; 260; 310; 190] 0.3 0.4 0.9);
      [simpl; discriminate | left; lra].
Defined.

End NewCycles.

Section AuditTrail.

Import MiracleDecay.

(** What one [tick] does to the two logs. *)
Lemma tick_logs (m : MiracleDecayManager) (i : list R) (d : R) :
  let m' := fst (tick m i d) in
  let r := snd (tick m i d) in
  (action r = "none"%string /\ m' = m) \/
  (action r = "monitoring"%string /\ phase (state m') = PENDING /\
   history m' = history m /\
   exists e, event e = "tick"%string /\
             decay_log (state m') = decay_log (state m) ++ [e]) \/
  (phase (state m) = PENDING /\ terminal (phase (state m')) = true /\
   exists e, (event e = "cancelled"%string \/ event e = "confirmed"%string) /\
             history m' = history m ++ [e]).
Proof.
  unfold tick; cbv zeta.
  destruct (phase_eqb (phase (state m)) PENDING) eqn:E; simpl.
  - apply phase_eqb_eq in E.
    destruct (Rgtb d (theta_cancel m)).
    + right; right; split; [exact E|].
      destruct (_ <=? _)%Z; simpl; (split; [reflexivity|]); pick_record.
    + destruct (_ <=? _)%Z; simpl.
      * right; right; split; [exact E|]; split; [reflexivity|]; pick_record.
      * right; left; repeat split; pick_record.
  - left; split; reflexivity.
Qed.

Lemma tick_extends_history (m : MiracleDecayManager) (i : list R) (d : R) :
  exists suffix, history (fst (tick m i d)) = history m ++ suffix.
Proof.
  destruct (tick_logs m i d) as [[_ H] | [(_ & _ & H & _) | (_ & _ & e & _ & H)]].
  - exists []; rewrite H, app_nil_r; reflexivity.
  - exists []; rewrite H, app_nil_r; reflexivity.
  - exists [e]; exact H.
Qed.

Lemma call_extends_history (m : MiracleDecayManager) (c : Call) :
  exists suffix, history (call m c) = history m ++ suffix.
Proof.
  destruct c as [i g gm v | i d |]; simpl.
  - exists []; rewrite attempt_history, app_nil_r; reflexivity.
  - apply tick_extends_history.
  - exists []; rewrite app_nil_r; reflexivity.
Qed.

(** C9.  The history returned by [get_history] only grows: after any
    sequence of [attempt_miracle], [tick] and [reset] calls it is the
    history before the sequence followed by new records, so no call removes
    or alters a record already there.  [reset] puts the state back to its
    defaults (phase [NONE], zero turns, zero baseline, empty per-cycle log)
    and leaves the history as it is. *)
Theorem history_is_append_only :
  (forall (cs : list Call) (m : MiracleDecayManager),
      exists suffix, get_history (calls m cs) = get_history m ++ suffix) /\
  (forall m : MiracleDecayManager,
      get_phase (reset m) = NONE /\
      state (reset m) = default_state /\
      get_history (reset m) = get_history m).
Proof.
  unfold get_history, get_phase, calls; split.
  - induction cs as [|c cs IH]; intros m; simpl.
    + exists []; rewrite app_nil_r; reflexivity.
    + destruct (IH (call m c)) as [s2 H2].
      destruct (call_extends_history m c) as [s1 H1].
      exists (s1 ++ s2); rewrite H2, H1, app_assoc; reflexivity.
  - intros m; repeat split.
Qed.

(** C10.  The history gets records at terminal transitions only.
    [attempt_miracle], admitted or not, leaves it as it is.  A [tick]
    either does nothing, or is a monitoring tick that appends one ["tick"]
    record to the per-cycle log and none to the history, or ends the cycle
    in a terminal phase and appends one ["cancelled"] or ["confirmed"]
    record to the history.  The per-cycle log is empty after an admission
    and after [reset].  Hence a cycle that is still [PENDING] when [reset]
    is called leaves the history as it was before the admission. *)
Theorem history_records_terminal_transitions_only :
  (forall m i g gm v,
      get_history (fst (attempt_miracle m i g gm v)) = get_history m) /\
  (forall m i d,
      let m' := fst (tick m i d) in
      let r := snd (tick m i d) in
      (action r = "none"%string /\ m' = m) \/
      (action r = "monitoring"%string /\ get_phase m' = PENDING /\
       get_history m' = get_history m /\
       exists e, event e = "tick"%string /\
                 decay_log (state m') = decay_log (state m) ++ [e]) \/
      (get_phase m = PENDING /\ terminal (get_phase m') = true /\
       exists e, (event e = "cancelled"%string \/ event e = "confirmed"%string) /\
                 get_history m' = get_history m ++ [e])) /\
  (forall m i g gm v,
      result (snd (attempt_miracle m i g gm v)) = "pending"%string ->
      decay_log (state (fst (attempt_miracle m i g gm v))) = []) /\
  (forall m, decay_log (state (reset m)) = []) /\
  (forall m baseline g gm v (pre : list (list R * R)),
      get_phase m <> PENDING -> gm < g -> 0.7 < v ->
      let m1 := fst (attempt_miracle m baseline g gm v) in
      get_phase (fst (ticks m1 pre)) = PENDING ->
      get_history (reset (fst (ticks m1 pre))) = get_history m).
Proof.
  unfold get_history, get_phase.
  split; [exact attempt_history|].
  split; [exact tick_logs|].
  split.
  { intros m i g gm v; unfold attempt_miracle.
    destruct (phase_eqb _ _); simpl; [discriminate|].
    destruct (_ && _); simpl; [reflexivity | discriminate]. }
  split; [reflexivity|].
  intros m baseline g gm v pre Hnp Hg Hv.
  rewrite (attempt_accepted m baseline g gm v Hnp Hg Hv); cbn [fst].
  intros Hpp.
  set (m1 := with_state m (mkState PENDING 0 baseline [])) in *.
  assert (Hp1 : phase (state m1) = PENDING) by reflexivity.
  destruct (ticks_stay_pending pre m1 Hp1 Hpp) as (_ & _ & H & _).
  simpl; rewrite H; reflexivity.
Qed.

Lemma history_records_terminal_transitions_only_witness :
  let m := init 5 0.05 0.3 0.5 in
  let b := [180; 260; 310; 190] in
  let m1 := fst (attempt_miracle m b 0.85 0.4 0.9) in
  get_history (reset (fst (ticks m1 [(b, 0.02); (b, 0.01)]))) = get_history m.
Proof.
  cbv zeta.
  destruct history_records_terminal_transitions_only as (_ & _ & _ & _ & K).
  apply (K (init 5 0.05 0.3 0.5) [180; 260; 310; 190] 0.85 0.4 0.9
           [([180; 260; 310; 190], 0.02); ([180; 260; 310; 190], 0.01)]).
  - simpl; discriminate.
  - lra.
  - lra.
  - rewrite attempt_accepted; [| simpl; discriminate | lra | lra]; cbn [fst].
    apply ticks_quiet.
    + reflexivity.
    + repeat constructor; simpl; lra.
    + simpl; lia.
Defined.

End AuditTrail.

(** * Further properties of the anomaly tracker *)

Section LeakyIntegrator.

Import AnomalyTracker.

Lemma sqnorm_nonneg (v : list R) : 0 <= Numpy.sqnorm v.
Proof. induction v as [|x v IH]; simpl; [lra | nra]. Qed.

Lemma norm_nonneg (v : list R) : 0 <= Numpy.norm v.
Proof. unfold Numpy.norm; apply sqrt_pos. Qed.


Lemma update_anomaly_returned (s : t) (o p d : list R) :
  Numpy.subtract o p = Some d ->
  update_anomaly s o p =
    (set_a_anom s ((1 - tau s) * a_anom s + tau s * Numpy.norm d),
     Returned ((1 - tau s) * a_anom s + tau s * Numpy.norm d)).
Proof. intros H; unfold update_anomaly; rewrite H; reflexivity. Qed.

(** X1.  The score stays in range: with [tau] in [[0,1]], a score that
    starts in [[0, D]] is still in [[0, D]] after any sequence of updates
    whose distances are at most [D] (calls that raise leave it as it is). *)
Theorem a_anom_stays_bounded :
  forall (calls : list (list R * list R)) (s : t) (D : R),
    0 <= tau s <= 1 ->
    0 <= a_anom s <= D ->
    distances_within D calls ->
    0 <= a_anom (updates s calls) <= D.
Proof.
  induction calls as [|[o p] calls IH]; intros s D Ht Ha Hd; simpl.
  - exact Ha.
  - inversion Hd as [|c cs Hc Hrest E]; subst; cbn [fst snd] in Hc.
    destruct (update_anomaly_params s o p) as (T & _ & _); cbv zeta in T.
    apply IH; [rewrite T; exact Ht | | exact Hrest].
    unfold update_anomaly.
    destruct (Numpy.subtract o p) as [d|] eqn:E; cbn [fst]; [| exact Ha].
    simpl.
    pose proof (norm_nonneg d) as Hn.
    pose proof (Hc d eq_refl) as Hle.
    split; nra.
Qed.

Lemma a_anom_stays_bounded_witness :
  0 <= a_anom (updates (init 0.2 0.4 1)
                       [([0.1; 0.1; 0.1; 0.1], [0.8; 0.8; 0.8; 0.8]);
                        ([1; 2; 3], [1; 2])]) <= 1.4.
Proof.
  apply (a_anom_stays_bounded
           [([0.1; 0.1; 0.1; 0.1], [0.8; 0.8; 0.8; 0.8]); ([1; 2; 3], [1; 2])]
           (init 0.2 0.4 1) 1.4).
  - simpl; lra.
  - simpl; lra.
  - unfold distances_within.
    apply Forall_cons; [| apply Forall_cons; [| apply Forall_nil]];
      cbn [fst snd]; intros d H.
    + destruct lie_distance as [Hs Hn].
      rewrite Hs in H; inversion H; subst; rewrite Hn; lra.
    + discriminate H.
Defined.

Lemma pow_unit_interval (x : R) (n : nat) : 0 <= x <= 1 -> 0 <= x ^ n <= 1.
Proof.
  intros [H0 H1]; split; [apply pow_le; exact H0|].
  rewrite <- (pow1 n); apply pow_incr; split; assumption.
Qed.

(** X2.  Constant distance: with [tau] in [[0,1]], a score [a] in [[0, D]]
    and a pair of compatible vectors whose distance [dist] is at most [D],
    [N] updates with that pair take the score to
    [dist + (a - dist) * (1 - tau)^N], which is still in [[0, D]]. *)
Theorem constant_distance_closed_form :
  forall (o p d : list R) (n : nat) (s : t) (D : R),
    0 <= tau s <= 1 ->
    0 <= a_anom s <= D ->
    Numpy.subtract o p = Some d ->
    Numpy.norm d <= D ->
    a_anom (updates s (repeat (o, p) n))
    = Numpy.norm d + (a_anom s - Numpy.norm d) * (1 - tau s) ^ n /\
    0 <= a_anom (updates s (repeat (o, p) n)) <= D.
Proof.
  intros o p d n s D Ht Ha H Hd.
  assert (E : forall n s,
             a_anom (updates s (repeat (o, p) n))
             = Numpy.norm d + (a_anom s - Numpy.norm d) * (1 - tau s) ^ n).
  { clear n s Ht Ha; induction n as [|n IH]; intros s; simpl.
    - lra.
    - rewrite (update_anomaly_returned s o p d H); cbn [fst].
      rewrite IH; simpl; lra. }
  split; [apply E|].
  rewrite E.
  pose proof (norm_nonneg d) as Hn.
  assert (Hq : 0 <= (1 - tau s) ^ n <= 1) by (apply pow_unit_interval; lra).
  split; nra.
Qed.

Lemma constant_distance_closed_form_witness :
  a_anom (updates (init 0.2 0.4 1)
                  (repeat ([0.1; 0.1; 0.1; 0.1], [0.8; 0.8; 0.8; 0.8]) 5))
  = Numpy.norm [0.1 - 0.8; 0.1 - 0.8; 0.1 - 0.8; 0.1 - 0.8]
    + (a_anom (init 0.2 0.4 1)
       - Numpy.norm [0.1 - 0.8; 0.1 - 0.8; 0.1 - 0.8; 0.1 - 0.8])
      * (1 - tau (init 0.2 0.4 1)) ^ 5.
Proof.
  apply (constant_distance_closed_form
           [0.1; 0.1; 0.1; 0.1] [0.8; 0.8; 0.8; 0.8]
           [0.1 - 0.8; 0.1 - 0.8; 0.1 - 0.8; 0.1 - 0.8] 5 (init 0.2 0.4 1) 1.4).
  - simpl; lra.
  - simpl; lra.
  - reflexivity.
  - rewrite (proj2 lie_distance); lra.
Defined.

(** X4.  The tolerance half-scale: for [g0] in [[0,1]] and
    [0 < alpha <= 1e300] (so that [a_anom + alpha] stays in range), the
    threshold is the midpoint of [g0] and 1 when the score equals [alpha],
    and [g0] itself at score 0. *)
Theorem g_min_half_scale :
  forall tau g0 alpha : R,
    0 < alpha <= 10 ^ 300 ->
    0 <= g0 <= 1 ->
    calculate_g_min (mk tau g0 alpha alpha) = (g0 + 1) / 2 /\
    calculate_g_min (mk tau g0 alpha 0) = g0.
Proof.
  intros tau0 g al [Hal _] _; unfold calculate_g_min; simpl; split; field; lra.
Qed.

Lemma g_min_half_scale_witness :
  calculate_g_min (mk 0.2 0.4 1 1) = (0.4 + 1) / 2 /\
  calculate_g_min (mk 0.2 0.4 1 0) = 0.4.
Proof.
  apply (g_min_half_scale 0.2 0.4 1); lra.
Defined.



End LeakyIntegrator.

(** * The facade [AnomalyTrackerV2] *)

Section Facade.

Import MiracleDecay.

Lemma facade_update_step (s : AnomalyTrackerV2.t) (o p : list R) :
  AnomalyTrackerV2.tracker (fst (AnomalyTrackerV2.update_anomaly s o p))
    = fst (AnomalyTracker.update_anomaly (AnomalyTrackerV2.tracker s) o p) /\
  snd (AnomalyTrackerV2.update_anomaly s o p)
    = snd (AnomalyTracker.update_anomaly (AnomalyTrackerV2.tracker s) o p) /\
  AnomalyTrackerV2.miracle_manager (fst (AnomalyTrackerV2.update_anomaly s o p))
    = AnomalyTrackerV2.miracle_manager s.
Proof.
  unfold AnomalyTrackerV2.update_anomaly, AnomalyTracker.update_anomaly.
  destruct (Numpy.subtract o p); simpl; repeat split.
Qed.

(** X6.  The tracker half of [AnomalyTrackerV2] behaves as [AnomalyTracker]:
    over any sequence of [update_anomaly] calls, raising ones included, the
    two classes go through the same scores and end with the same threshold
    [calculate_g_min()], each call returns or raises alike, and the facade's
    manager is left alone. *)
Theorem facade_tracks_like_v1 :
  forall (cs : list (list R * list R)) (s : AnomalyTrackerV2.t),
    AnomalyTrackerV2.tracker (AnomalyTrackerV2.updates s cs)
      = AnomalyTracker.updates (AnomalyTrackerV2.tracker s) cs /\
    AnomalyTrackerV2.calculate_g_min (AnomalyTrackerV2.updates s cs)
      = AnomalyTracker.calculate_g_min
          (AnomalyTracker.updates (AnomalyTrackerV2.tracker s) cs) /\
    AnomalyTrackerV2.miracle_manager (AnomalyTrackerV2.updates s cs)
      = AnomalyTrackerV2.miracle_manager s /\
    (forall o p,
        snd (AnomalyTrackerV2.update_anomaly
               (AnomalyTrackerV2.updates s cs) o p)
        = snd (AnomalyTracker.update_anomaly
                 (AnomalyTracker.updates (AnomalyTrackerV2.tracker s) cs) o p)).
Proof.
  assert (G : forall cs s,
             AnomalyTrackerV2.tracker (AnomalyTrackerV2.updates s cs)
             = AnomalyTracker.updates (AnomalyTrackerV2.tracker s) cs /\
             AnomalyTrackerV2.miracle_manager (AnomalyTrackerV2.updates s cs)
             = AnomalyTrackerV2.miracle_manager s).
  { induction cs as [|[o p] cs IH]; intros s; simpl; [split; reflexivity|].
    destruct (facade_update_step s o p) as (T & _ & M).
    destruct (IH (fst (AnomalyTrackerV2.update_anomaly s o p))) as (T' & M').
    rewrite T', T, M', M; split; reflexivity. }
  intros cs s; destruct (G cs s) as (T & M).
  split; [exact T|].
  split; [rewrite <- T; reflexivity|].
  split; [exact M|].
  intros o p; rewrite <- T; apply facade_update_step.
Qed.




End Facade.

(** * Invariants of the miracle decay manager *)

Section ManagerInvariants.

Import MiracleDecay.

Lemma call_same_config (m : MiracleDecayManager) (c : Call) :
  same_config m (call m c).
Proof.
  destruct c as [i g gm v | i d |]; simpl.
  - unfold attempt_miracle.
    destruct (phase_eqb _ _); [apply same_config_refl|].
    destruct (_ && _); simpl; repeat split.
  - unfold tick; cbv zeta.
    destruct (negb _); [apply same_config_refl|].
    destruct (Rgtb _ _); [repeat split|].
    destruct (_ <=? _)%Z; repeat split.
  - repeat split.
Qed.

Lemma calls_same_config (cs : list Call) :
  forall m, same_config m (calls m cs).
Proof.
  unfold calls; induction cs as [|c cs IH]; intros m; simpl.
  - apply same_config_refl.
  - apply (same_config_trans _ _ _ (call_same_config m c) (IH _)).
Qed.

Lemma tick_keeps_invariant (m : MiracleDecayManager) (i : list R) (d : R) :
  cycle_invariant m -> cycle_invariant (fst (tick m i d)).
Proof.
  unfold cycle_invariant, tick; cbv zeta.
  destruct (phase_eqb (phase (state m)) PENDING) eqn:E; simpl;
    [| intros H; exact H].
  apply phase_eqb_eq in E; rewrite E.
  intros (H0 & Hl & Hp).
  destruct (Rgtb d (theta_cancel m)).
  - destruct (Z.leb_spec (turns_elapsed (state m) + 1) (k_max m / 2));
      simpl; rewrite length_app; simpl;
      (split; [lia | split; [lia |]]).
    + lia.
    + assert (Hh : (k_max m / 2 <= k_max m \/ k_max m <= 0)%Z).
      { destruct (Z_lt_le_dec 0 (k_max m)) as [Hpos | Hneg]; [left | right; lia].
        apply Z.lt_le_incl, Z.div_lt; lia. }
      lia.
  - destruct (Z.leb_spec (k_max m) (turns_elapsed (state m) + 1));
      simpl; rewrite length_app; simpl;
      (split; [lia | split; [lia | lia]]).
Qed.

Lemma call_keeps_invariant (m : MiracleDecayManager) (c : Call) :
  cycle_invariant m -> cycle_invariant (call m c).
Proof.
  destruct c as [i g gm v | i d |]; simpl.
  - unfold attempt_miracle.
    destruct (phase_eqb _ _); [auto|].
    destruct (_ && _); simpl; [| auto].
    intros _; unfold cycle_invariant; simpl; lia.
  - apply tick_keeps_invariant.
  - intros _; unfold cycle_invariant; simpl; lia.
Qed.

Lemma calls_keep_invariant (cs : list Call) :
  forall m, cycle_invariant m -> cycle_invariant (calls m cs).
Proof.
  unfold calls; induction cs as [|c cs IH]; intros m H; simpl.
  - exact H.
  - apply IH, call_keeps_invariant, H.
Qed.

Lemma init_invariant (k : Z) (th r ka : R) : cycle_invariant (init k th r ka).
Proof. unfold cycle_invariant; simpl; lia. Qed.

(** X9.  Turn counter.  For a manager built with [k_max >= 1], after any
    sequence of calls: [turns_elapsed] is in [[0, k_max]], it is below
    [k_max] while [PENDING], equal to [k_max] once [CONFIRMED], and 0 when
    idle. *)
Theorem turns_elapsed_within_window :
  forall (k : Z) (th r ka : R) (cs : list Call),
    (1 <= k)%Z ->
    let m := calls (init k th r ka) cs in
    (0 <= turns_elapsed (state m) <= k)%Z /\
    (get_phase m = NONE -> turns_elapsed (state m) = 0%Z) /\
    (get_phase m = PENDING -> (turns_elapsed (state m) < k)%Z) /\
    (get_phase m = CONFIRMED -> turns_elapsed (state m) = k).
Proof.
  intros k th r ka cs Hk m.
  pose proof (calls_keep_invariant cs _ (init_invariant k th r ka)) as H.
  destruct (calls_same_config cs (init k th r ka)) as (Hkm & _).
  fold m in H, Hkm; simpl in Hkm.
  unfold cycle_invariant in H; cbv zeta in H; rewrite Hkm in H.
  destruct H as (H0 & _ & Hp); unfold get_phase.
  assert (Hh : (k / 2 < k)%Z) by (apply Z.div_lt; lia).
  destruct (phase (state m)); repeat split; try discriminate; intros; lia.
Qed.

Lemma turns_elapsed_within_window_witness :
  let m := calls (MiracleDecay.init 5 0.05 0.3 0.5)
                 [CallAttempt [180; 260] 0.85 0.4 0.9; CallTick [180; 260] 0;
                  CallReset] in
  (0 <= turns_elapsed (state m) <= 5)%Z.
Proof.
  cbv zeta.
  apply (turns_elapsed_within_window 5 0.05 0.3 0.5
           [CallAttempt [180; 260] 0.85 0.4 0.9; CallTick [180; 260] 0;
            CallReset]).
  lia.
Defined.

(** X10.  Per-cycle log and outcome label.  After any sequence of calls on
    a fresh manager, whatever its configuration: the per-cycle log holds one
    record per counted turn; a [HIJACK_DETECTED] phase was reached on a turn
    in [[1, k_max // 2]] and a [CANCELLED] phase on a turn above
    [k_max // 2]. *)
Theorem decay_log_counts_turns :
  forall (k : Z) (th r ka : R) (cs : list Call),
    let m := calls (init k th r ka) cs in
    Z.of_nat (length (decay_log (state m))) = turns_elapsed (state m) /\
    (get_phase m = HIJACK_DETECTED ->
     (1 <= turns_elapsed (state m) <= k / 2)%Z) /\
    (get_phase m = CANCELLED -> (k / 2 < turns_elapsed (state m))%Z).
Proof.
  intros k th r ka cs m.
  pose proof (calls_keep_invariant cs _ (init_invariant k th r ka)) as H.
  destruct (calls_same_config cs (init k th r ka)) as (Hkm & _).
  fold m in H, Hkm; simpl in Hkm.
  unfold cycle_invariant in H; cbv zeta in H; rewrite Hkm in H.
  destruct H as (_ & Hl & Hp); unfold get_phase.
  split; [exact Hl|].
  destruct (phase (state m)); split; try discriminate; intros; lia.
Qed.

Lemma decay_log_counts_turns_check :
  let m := calls (MiracleDecay.init 0 0.05 0.3 0.5)
                 [CallAttempt [180; 260] 0.85 0.4 0.9; CallTick [180; 260] 0.08] in
  get_phase m = CANCELLED /\ length (decay_log (state m)) = 1%nat.
Proof.
  cbv zeta; unfold calls; simpl fold_left.
  rewrite attempt_accepted; [| simpl; discriminate | lra | lra]; cbn [fst].
  rewrite tick_recurrence; [| reflexivity | simpl; lra].
  split; reflexivity.
Qed.

Lemma audit_record_config (m m' : MiracleDecayManager) (e : LogEntry) :
  same_config m m' -> audit_record m e -> audit_record m' e.
Proof.
  intros (Hk & Ht & Hr & _); destruct e; simpl; [| auto |].
  - rewrite Hk, Ht; auto.
  - rewrite Hr; auto.
Qed.

Lemma call_keeps_audit (m : MiracleDecayManager) (c : Call) :
  cycle_invariant m ->
  Forall (audit_record m) (history m) ->
  Forall (audit_record (call m c)) (history (call m c)).
Proof.
  intros Hi Hh.
  assert (Hold : Forall (audit_record (call m c)) (history m)).
  { eapply Forall_impl; [| exact Hh].
    intros e; apply audit_record_config, call_same_config. }
  destruct c as [i g gm v | i d |]; simpl in *.
  - rewrite attempt_history; exact Hold.
  - revert Hold; unfold tick; cbv zeta.
    destruct (phase_eqb (phase (state m)) PENDING) eqn:E; simpl; [| auto].
    destruct Hi as (H0 & _ & _).
    destruct (Rgtb d (theta_cancel m)) eqn:Ed; simpl.
    + intros Hold; apply Forall_app; split; [exact Hold|].
      constructor; [| constructor].
      apply Rgtb_true_iff in Ed; simpl; repeat split; try assumption; lia.
    + destruct (_ <=? _)%Z; simpl; [| auto].
      intros Hold; apply Forall_app; split; [exact Hold|].
      constructor; [| constructor]; simpl; split; reflexivity.
  - exact Hold.
Qed.

(** X11.  The audit trail.  After any sequence of calls on a fresh manager,
    every record of the history is a cancellation or a confirmation, never a
    monitoring tick.  A cancellation has [integrals_unchanged = True], the
    manager's [theta_cancel], a rate above it, a turn of at least 1 and
    [hijack_suspected] set exactly when the turn is at most [k_max // 2]; a
    confirmation has the manager's [rho] and [integrals_after] equal to
    [integrals_before] times [1 - rho]. *)
Theorem history_holds_audit_records :
  forall (k : Z) (th r ka : R) (cs : list Call),
    let m := calls (init k th r ka) cs in
    Forall (audit_record m) (get_history m).
Proof.
  intros k th r ka cs; cbv zeta; unfold get_history, calls.
  assert (G : forall m, cycle_invariant m -> Forall (audit_record m) (history m) ->
                        Forall (audit_record (fold_left call cs m))
                               (history (fold_left call cs m))).
  { induction cs as [|c cs IH]; intros m Hi Hh; simpl; [exact Hh|].
    apply IH; [apply call_keeps_invariant, Hi | apply call_keeps_audit; assumption]. }
  apply G; [apply init_invariant | constructor].
Qed.

End ManagerInvariants.

Section Window.

Import MiracleDecay.

Lemma terminal_not_pending (p : MiraclePhase) :
  terminal p = true -> p <> PENDING.
Proof. destruct p; simpl; congruence. Qed.

(** X12.  The window always closes: from a [PENDING] state, after at least
    one tick and at least [k_max - turns_elapsed] ticks, whatever their
    rates, the phase is terminal. *)
Theorem window_always_closes :
  forall (cs : list (list R * R)) (m : MiracleDecayManager),
    get_phase m = PENDING ->
    (1 <= length cs)%nat ->
    (k_max m - turns_elapsed (state m) <= Z.of_nat (length cs))%Z ->
    terminal (get_phase (fst (ticks m cs))) = true.
Proof.
  unfold get_phase.
  induction cs as [|[i d] cs IH]; intros m Hp Hl Hk; [simpl in Hl; lia|].
  rewrite ticks_cons; cbn [fst].
  destruct (Rlt_dec (theta_cancel m) d) as [Hd | Hd].
  - pose proof (tick_recurrence m i d Hp Hd) as Ht; cbv zeta in Ht.
    rewrite Ht; cbn [fst].
    rewrite ticks_not_pending.
    + simpl; destruct (_ <=? _)%Z; reflexivity.
    + simpl; destruct (_ <=? _)%Z; discriminate.
  - assert (Hq : d <= theta_cancel m) by lra.
    destruct (Z_le_gt_dec (k_max m) (turns_elapsed (state m) + 1)) as [Hc | Hc].
    + pose proof (tick_confirmation m i d Hp Hq Hc) as Ht; cbv zeta in Ht.
      rewrite Ht; cbn [fst].
      rewrite ticks_not_pending; [reflexivity | simpl; discriminate].
    + assert (Hc' : (turns_elapsed (state m) + 1 < k_max m)%Z) by lia.
      pose proof (tick_monitoring m i d Hp Hq Hc') as Ht; cbv zeta in Ht.
      rewrite Ht; cbn [fst].
      cbn [length] in Hk.
      apply IH; simpl; [reflexivity | lia | lia].
Qed.

Lemma window_always_closes_witness :
  let m := fst (attempt_miracle (init 2 0.05 0.3 0.5) [180; 260] 0.85 0.4 0.9) in
  terminal (get_phase (fst (ticks m [([180; 260], 0); ([180; 260], 0.01);
                                    ([180; 260], 0.5)]))) = true.
Proof.
  cbv zeta.
  rewrite attempt_accepted; [| simpl; discriminate | lra | lra]; cbn [fst].
  apply window_always_closes.
  - reflexivity.
  - simpl; lia.
  - simpl; lia.
Defined.

(** X13.  No commit on a recurrence: if a run of ticks started in a
    [PENDING] state with [turns_elapsed < k_max] ends [CONFIRMED], then the
    run had at least [k_max - turns_elapsed] ticks and for none of the first
    [k_max - turns_elapsed] did the test [d_dot > theta_cancel] hold. *)
Theorem confirmation_needs_quiet_window :
  forall (cs : list (list R * R)) (m : MiracleDecayManager),
    get_phase m = PENDING ->
    (turns_elapsed (state m) < k_max m)%Z ->
    get_phase (fst (ticks m cs)) = CONFIRMED ->
    let n := Z.to_nat (k_max m - turns_elapsed (state m)) in
    (n <= length cs)%nat /\
    Forall (fun c => ~ theta_cancel m < snd c) (firstn n cs).
Proof.
  unfold get_phase.
  induction cs as [|[i d] cs IH]; intros m Hp Hk Hend.
  - simpl in Hend; congruence.
  - rewrite ticks_cons in Hend; cbn [fst] in Hend.
    destruct (Rlt_dec (theta_cancel m) d) as [Hd | Hd].
    + pose proof (tick_recurrence m i d Hp Hd) as Ht; cbv zeta in Ht.
      rewrite Ht in Hend; cbn [fst] in Hend.
      rewrite ticks_not_pending in Hend;
        simpl in *; destruct (_ <=? _)%Z; discriminate.
    + assert (Hq : d <= theta_cancel m) by lra.
      destruct (Z_le_gt_dec (k_max m) (turns_elapsed (state m) + 1)) as [Hc | Hc].
      * assert (Hn : Z.to_nat (k_max m - turns_elapsed (state m)) = 1%nat) by lia.
        cbv zeta; rewrite Hn; simpl; split; [lia|].
        constructor; [exact Hd | constructor].
      * assert (Hc' : (turns_elapsed (state m) + 1 < k_max m)%Z) by lia.
        pose proof (tick_monitoring m i d Hp Hq Hc') as Ht; cbv zeta in Ht.
        rewrite Ht in Hend; cbn [fst] in Hend.
        match type of Hend with
        | phase (state (fst (ticks ?m1 cs))) = _ =>
            destruct (IH m1) as [Hl Hf];
              [reflexivity | simpl; lia | exact Hend |]
        end.
        simpl in Hl, Hf.
        assert (Hn : Z.to_nat (k_max m - turns_elapsed (state m))
                     = S (Z.to_nat (k_max m - (turns_elapsed (state m) + 1))))
          by lia.
        cbv zeta; rewrite Hn; simpl; split; [lia|].
        constructor; [exact Hd | exact Hf].
Qed.

Lemma confirmation_needs_quiet_window_witness :
  let m := with_state (init 1 0.05 0.3 0.5) (mkState PENDING 0 [180; 260] []) in
  (Z.to_nat (k_max m - turns_elapsed (state m)) <= length [([180; 260], 0)])%nat.
Proof.
  cbv zeta.
  apply (confirmation_needs_quiet_window
           [([180; 260], 0)]
           (with_state (init 1 0.05 0.3 0.5) (mkState PENDING 0 [180; 260] []))).
  - reflexivity.
  - simpl; lia.
  - unfold get_phase; simpl ticks.
    rewrite tick_confirmation; [reflexivity | reflexivity | simpl; lra | simpl; lia].
Defined.

(** X14.  The partial reset stays within the baseline: when a tick returns
    [new_integrals], they have one entry per baseline entry, and with [rho]
    in [[0,1]] and a baseline without negative entries each new entry lies
    between 0 and the baseline entry it replaces. *)
Theorem new_integrals_within_baseline :
  forall (m : MiracleDecayManager) (i : list R) (d : R) (n : list R),
    new_integrals (snd (tick m i d)) = Some n ->
    0 <= rho m <= 1 ->
    Forall (fun x => 0 <= x) (initial_integrals (state m)) ->
    Forall2 (fun b x => 0 <= x <= b) (initial_integrals (state m)) n.
Proof.
  intros m i d n Hn Hr Hb.
  assert (E : n = Numpy.scale (initial_integrals (state m)) (1 - rho m)).
  { revert Hn; unfold tick; cbv zeta.
    destruct (negb _); simpl; [discriminate|].
    destruct (Rgtb _ _); simpl; [discriminate|].
    destruct (_ <=? _)%Z; simpl; [| discriminate].
    intros H; injection H as H; symmetry; exact H. }
  subst n; clear Hn; induction Hb as [|x l Hx Hl IH]; simpl; constructor.
  - split; nra.
  - exact IH.
Qed.

Lemma new_integrals_within_baseline_witness :
  let m := with_state (init 1 0.05 0.3 0.5) (mkState PENDING 0 [180; 260] []) in
  Forall2 (fun b x => 0 <= x <= b) [180; 260] [180 * (1 - 0.3); 260 * (1 - 0.3)].
Proof.
  cbv zeta.
  apply (new_integrals_within_baseline
           (with_state (init 1 0.05 0.3 0.5) (mkState PENDING 0 [180; 260] []))
           [180; 260] 0).
  - rewrite tick_confirmation; [reflexivity | reflexivity | simpl; lra | simpl; lia].
  - simpl; lra.
  - simpl; repeat constructor; lra.
Defined.

(** X15.  A window of length one.  The constructor accepts any [k_max]; with
    [k_max <= 1] (zero and negative values included) the first tick of a
    cycle ends it: [CONFIRMED] when the rate is at or below [theta_cancel],
    otherwise [CANCELLED], never [HIJACK_DETECTED]. *)
Theorem short_window_ends_on_first_tick :
  forall (m : MiracleDecayManager) (i : list R) (d : R),
    get_phase m = PENDING ->
    (k_max m <= 1)%Z ->
    (0 <= turns_elapsed (state m))%Z ->
    (d <= theta_cancel m -> get_phase (fst (tick m i d)) = CONFIRMED) /\
    (theta_cancel m < d -> get_phase (fst (tick m i d)) = CANCELLED).
Proof.
  unfold get_phase; intros m i d Hp Hk Ht; split; intros Hd.
  - rewrite tick_confirmation; [reflexivity | exact Hp | exact Hd | lia].
  - rewrite tick_recurrence; [| exact Hp | exact Hd].
    cbv zeta; cbn [fst]; simpl.
    assert (Hh : (k_max m / 2 <= 0)%Z).
    { destruct (Z_lt_le_dec 0 (k_max m)) as [Hpos | Hneg].
      - assert (k_max m = 1%Z) as -> by lia; reflexivity.
      - apply Z.div_le_upper_bound; lia. }
    destruct (Z.leb_spec (turns_elapsed (state m) + 1) (k_max m / 2));
      [lia | reflexivity].
Qed.

Lemma short_window_ends_on_first_tick_witness :
  let m := with_state (init 0 0.05 0.3 0.5) (mkState PENDING 0 [180; 260] []) in
  get_phase (fst (tick m [180; 260] 0.08)) = CANCELLED.
Proof.
  cbv zeta.
  apply (short_window_ends_on_first_tick
           (with_state (init 0 0.05 0.3 0.5) (mkState PENDING 0 [180; 260] []))
           [180; 260] 0.08).
  - reflexivity.
  - simpl; lia.
  - simpl; lia.
  - simpl; lra.
Defined.

End Window.

(** * Rounding, clipping and [tanh] *)

Section Rounding.

Lemma Int_part_le (x y : R) : x <= y -> (Int_part x <= Int_part y)%Z.
Proof.
  intros H.
  destruct (base_Int_part x) as [Hx _].
  destruct (base_Int_part y) as [_ Hy].
  assert (K : IZR (Int_part x) < IZR (Int_part y + 1)) by (rewrite plus_IZR; lra).
  apply lt_IZR in K; lia.
Qed.

Lemma Int_part_IZR (z : Z) : Int_part (IZR z) = z.
Proof. symmetry; apply Int_part_spec; lra. Qed.

Lemma frac_part_range (x : R) : 0 <= frac_part x < 1.
Proof. destruct (base_fp x); lra. Qed.

Lemma frac_part_eq (x : R) : frac_part x = x - IZR (Int_part x).
Proof. pose proof (Rplus_Int_part_frac_part x); lra. Qed.

Lemma round_half_even_IZR (z : Z) : round_half_even (IZR z) = z.
Proof.
  unfold round_half_even; cbv zeta.
  rewrite frac_part_eq, Int_part_IZR.
  destruct (Rlt_dec (IZR z - IZR z) (1 / 2)); [reflexivity | lra].
Qed.

Lemma round_half_even_between (x : R) :
  (Int_part x <= round_half_even x <= Int_part x + 1)%Z.
Proof.
  unfold round_half_even; cbv zeta.
  destruct (Rlt_dec _ _); [lia|].
  destruct (Rlt_dec _ _); [lia|].
  destruct (Z.even _); lia.
Qed.

Lemma round_half_even_le (x y : R) :
  x <= y -> (round_half_even x <= round_half_even y)%Z.
Proof.
  intros H.
  pose proof (Int_part_le x y H) as Hi.
  destruct (Z_lt_le_dec (Int_part x) (Int_part y)) as [Hlt | Hge].
  - pose proof (round_half_even_between x); pose proof (round_half_even_between y).
    lia.
  - assert (E : Int_part x = Int_part y) by lia.
    unfold round_half_even; cbv zeta.
    rewrite !frac_part_eq, E.
    destruct (Rlt_dec (x - IZR (Int_part y)) (1 / 2));
      destruct (Rlt_dec (y - IZR (Int_part y)) (1 / 2));
      destruct (Rlt_dec (1 / 2) (x - IZR (Int_part y)));
      destruct (Rlt_dec (1 / 2) (y - IZR (Int_part y)));
      destruct (Z.even (Int_part y)); try lia; lra.
Qed.

Lemma pow10_pos (n : nat) : 0 < 10 ^ n.
Proof. apply pow_lt; lra. Qed.

Lemma py_round_le (x y : R) (n : nat) :
  x <= y -> py_round x n <= py_round y n.
Proof.
  intros H; unfold py_round.
  pose proof (pow10_pos n) as Hp.
  apply Rmult_le_compat_r; [left; apply Rinv_0_lt_compat; exact Hp|].
  apply IZR_le, round_half_even_le.
  apply Rmult_le_compat_r; lra.
Qed.

Lemma py_round_grid (z : Z) (n : nat) :
  py_round (IZR z / 10 ^ n) n = IZR z / 10 ^ n.
Proof.
  unfold py_round.
  pose proof (pow10_pos n) as Hp.
  replace (IZR z / 10 ^ n * 10 ^ n) with (IZR z) by (field; lra).
  rewrite round_half_even_IZR; reflexivity.
Qed.

Lemma py_round_idempotent (x : R) (n : nat) :
  py_round (py_round x n) n = py_round x n.
Proof. unfold py_round at 2 3; apply py_round_grid. Qed.

Lemma tanh_range (x : R) : -1 < tanh x < 1.
Proof.
  unfold tanh, sinh, cosh.
  pose proof (exp_pos x) as Ha; pose proof (exp_pos (- x)) as Hb.
  set (a := exp x) in *; set (b := exp (- x)) in *.
  replace ((a - b) / 2 / ((a + b) / 2)) with ((a - b) / (a + b))
    by (field; lra).
  assert (Hab : 0 < a + b) by lra.
  split.
  - apply Rmult_lt_reg_r with (a + b); [exact Hab|].
    unfold Rdiv; rewrite Rmult_assoc, Rinv_l by lra; lra.
  - apply Rmult_lt_reg_r with (a + b); [exact Hab|].
    unfold Rdiv; rewrite Rmult_assoc, Rinv_l by lra; lra.
Qed.

Lemma tanh_nonneg (x : R) : 0 <= x -> 0 <= tanh x.
Proof.
  intros Hx; unfold tanh, sinh, cosh.
  pose proof (exp_pos x) as Ha; pose proof (exp_pos (- x)) as Hb.
  assert (Hle : exp (- x) <= exp x).
  { destruct (Req_dec x 0) as [-> | Hne]; [rewrite Ropp_0; lra|].
    left; apply exp_increasing; lra. }
  set (a := exp x) in *; set (b := exp (- x)) in *.
  replace ((a - b) / 2 / ((a + b) / 2)) with ((a - b) / (a + b))
    by (field; lra).
  apply Rmult_le_pos; [lra | left; apply Rinv_0_lt_compat; lra].
Qed.

Lemma clip_range (x lo hi : R) : lo <= hi -> lo <= Numpy.clip x lo hi <= hi.
Proof.
  intros H; unfold Numpy.clip, Rmin, Rmax.
  destruct (Rle_dec x lo); destruct (Rle_dec _ hi); lra.
Qed.

Lemma clip_le (x y lo hi : R) :
  x <= y -> Numpy.clip x lo hi <= Numpy.clip y lo hi.
Proof.
  intros H; unfold Numpy.clip.
  apply Rle_min_compat_r, Rle_max_compat_r, H.
Qed.

End Rounding.

(** * The dynamic safety cap and the reignition decision *)

Section SafetyCap.

Import Reignition.

(** X16.  With the default sensitivities, for non-empty fatigue arrays
    without negative entries and a trauma intensity [>= 0], the
    vulnerability factor lies in [[0.0001, 1]], and it does not increase
    when the mean fatigue and the trauma intensity increase. *)
Theorem vulnerability_factor_range_and_antitone :
  forall (f1 f2 : list R) (t1 t2 : R),
    f1 <> [] -> f2 <> [] ->
    Forall (fun x => 0 <= x) f1 -> Forall (fun x => 0 <= x) f2 ->
    0 <= t1 -> 0 <= t2 ->
    0.0001 <= vulnerability_factor f1 t1 LAMBDA_I LAMBDA_T <= 1 /\
    (Numpy.mean f1 <= Numpy.mean f2 -> t1 <= t2 ->
     vulnerability_factor f2 t2 LAMBDA_I LAMBDA_T
     <= vulnerability_factor f1 t1 LAMBDA_I LAMBDA_T).
Proof.
  intros f1 f2 t1 t2 _ _ _ _ _ _; unfold vulnerability_factor; cbv zeta; split.
  - apply clip_range; lra.
  - intros Hm Ht; apply clip_le.
    destruct (Req_dec (- LAMBDA_I * Numpy.mean f2 - LAMBDA_T * t2)
                      (- LAMBDA_I * Numpy.mean f1 - LAMBDA_T * t1))
      as [-> | Hne]; [lra|].
    left; apply exp_increasing; unfold LAMBDA_I, LAMBDA_T in *; lra.
Qed.

Lemma vulnerability_factor_range_and_antitone_witness :
  0.0001 <= vulnerability_factor [8; 6; 9; 5] 0.8 LAMBDA_I LAMBDA_T <= 1.
Proof.
  apply (vulnerability_factor_range_and_antitone
           [8; 6; 9; 5] [0; 0; 0; 0] 0.8 0);
    try discriminate; try lra; repeat constructor; lra.
Defined.

(** X17.  The relational factor stays within [delta] of 1 for [delta >= 0],
    and for [eta * g_rel >= 0] it lies in [[1, 1 + delta]]. *)
Theorem relational_factor_range :
  forall g_rel delta eta : R,
    0 <= delta ->
    1 - delta <= relational_factor g_rel delta eta <= 1 + delta /\
    (0 <= eta * g_rel -> 1 <= relational_factor g_rel delta eta).
Proof.
  intros g de et Hd; unfold relational_factor.
  pose proof (tanh_range (et * g)) as Ht.
  split; [split; nra|].
  intros Hg; pose proof (tanh_nonneg _ Hg); nra.
Qed.

Lemma relational_factor_range_witness :
  1 <= relational_factor 0.9 DELTA_R ETA_R <= 1 + DELTA_R.
Proof.
  destruct (relational_factor_range 0.9 DELTA_R ETA_R) as [[_ Hu] Hl].
  - unfold DELTA_R; lra.
  - split; [apply Hl; unfold ETA_R; lra | exact Hu].
Defined.

Lemma cap_product_range (f : list R) (t g : R) :
  0 <= DELTA_P_BASE * vulnerability_factor f t LAMBDA_I LAMBDA_T
       * relational_factor g DELTA_R ETA_R <= 0.65.
Proof.
  assert (Hv : 0.0001 <= vulnerability_factor f t LAMBDA_I LAMBDA_T <= 1).
  { unfold vulnerability_factor; cbv zeta; apply clip_range; lra. }
  assert (Hr : 1 - DELTA_R <= relational_factor g DELTA_R ETA_R <= 1 + DELTA_R).
  { apply relational_factor_range; unfold DELTA_R; lra. }
  unfold DELTA_P_BASE, DELTA_R in *; split; nra.
Qed.

Lemma round4_unit_interval (hi : Z) (y : R) :
  0 <= y <= IZR hi / 10 ^ 4 -> 0 <= py_round y 4 <= IZR hi / 10 ^ 4.
Proof.
  intros [H0 H1]; split.
  - replace 0 with (IZR 0 / 10 ^ 4) by lra.
    rewrite <- (py_round_grid 0 4); apply py_round_le.
    replace (IZR 0 / 10 ^ 4) with 0 by lra; exact H0.
  - rewrite <- (py_round_grid hi 4); apply py_round_le; exact H1.
Qed.

Lemma dynamic_safety_cap_bounds (f : list R) (t g : R) :
  let cap := dynamic_safety_cap f t g DELTA_P_BASE in
  0 <= cap_delta_p_max cap <= 0.65 /\
  py_round (cap_delta_p_max cap) 4 = cap_delta_p_max cap.
Proof.
  unfold dynamic_safety_cap; cbv zeta; cbn [cap_delta_p_max].
  split; [| apply py_round_idempotent].
  replace 0.65 with (IZR 6500 / 10 ^ 4) by lra.
  apply round4_unit_interval.
  replace (IZR 6500 / 10 ^ 4) with 0.65 by lra.
  apply cap_product_range.
Qed.

(** X18.  For a non-empty fatigue array without negative entries, a trauma
    intensity [>= 0] and a relational gravity [>= 0], the cap computed with
    the default base 0.5 lies in [[0, 0.65]], and rounding it again to four
    digits changes nothing. *)
Theorem dynamic_safety_cap_range :
  forall (f : list R) (t g : R),
    f <> [] -> Forall (fun x => 0 <= x) f -> 0 <= t -> 0 <= g ->
    let cap := dynamic_safety_cap f t g DELTA_P_BASE in
    0 <= cap_delta_p_max cap <= 0.65 /\
    py_round (cap_delta_p_max cap) 4 = cap_delta_p_max cap.
Proof.
  intros f t g _ _ _ _; apply dynamic_safety_cap_bounds.
Qed.

Lemma dynamic_safety_cap_range_witness :
  0 <= cap_delta_p_max (dynamic_safety_cap [0.5; 0.3; 0.4; 0.2] 0 0.9 DELTA_P_BASE)
  <= 0.65.
Proof.
  apply (dynamic_safety_cap_range [0.5; 0.3; 0.4; 0.2] 0 0.9);
    try discriminate; try lra; repeat constructor; lra.
Defined.

Lemma decision_cases (f : list R) (t g p a th : R) :
  let r := reignition_decision f t g p a th in
  let cap := dynamic_safety_cap f t g DELTA_P_BASE in
  delta_p_max r = cap_delta_p_max cap /\
  ((permitted r = false /\ selected_delta_p r = 0) \/
   (permitted r = true /\
    selected_delta_p r = py_round (Rmin p (cap_delta_p_max cap)) 4 /\
    0.05 <= cap_delta_p_max cap /\ ~ th < a /\
    0 < Rmin p (cap_delta_p_max cap) /\
    (case r = "CASE_A"%string \/ case r = "CASE_B"%string))).
Proof.
  unfold reignition_decision; cbv zeta.
  set (cap := dynamic_safety_cap f t g DELTA_P_BASE); clearbody cap.
  unfold Rltb, Rgeb.
  destruct (Rgtb 0.05 (cap_delta_p_max cap)) eqn:E1; simpl; [auto|].
  destruct (Rgtb a th) eqn:E2; simpl; [auto|].
  assert (H1 : 0.05 <= cap_delta_p_max cap).
  { destruct (Rle_dec 0.05 (cap_delta_p_max cap)) as [K | K]; [exact K|].
    rewrite Rgtb_true in E1 by lra; discriminate. }
  assert (H2 : ~ th < a).
  { intros K; rewrite (Rgtb_true _ _ K) in E2; discriminate. }
  destruct (Rgtb 0.3 (Rmin p (cap_delta_p_max cap))) eqn:E3; simpl.
  - destruct (Rgtb (Rmin p (cap_delta_p_max cap)) 0) eqn:E4; simpl; [| auto].
    apply Rgtb_true_iff in E4.
    split; [reflexivity | right; repeat split; auto].
  - assert (H3 : 0.3 <= Rmin p (cap_delta_p_max cap)).
    { destruct (Rle_dec 0.3 (Rmin p (cap_delta_p_max cap))) as [K | K]; [exact K|].
      rewrite Rgtb_true in E3 by lra; discriminate. }
    destruct (Rgtb (cap_R cap) 1.1); simpl.
    + split; [reflexivity | right; repeat split; auto; lra].
    + rewrite Rgtb_true by lra.
      split; [reflexivity | right; repeat split; auto; lra].
Qed.

(** X19.  The selected intervention never exceeds the cap: for a non-empty
    fatigue array without negative entries, a trauma intensity [>= 0] and a
    relational gravity [>= 0],
    [0 <= selected_delta_p <= delta_p_max <= 0.65], whatever was proposed. *)
Theorem selected_delta_p_within_cap :
  forall (f : list R) (t g p a th : R),
    f <> [] -> Forall (fun x => 0 <= x) f -> 0 <= t -> 0 <= g ->
    let r := reignition_decision f t g p a th in
    0 <= selected_delta_p r <= delta_p_max r /\ delta_p_max r <= 0.65.
Proof.
  intros f t g p a th _ _ _ _.
  destruct (decision_cases f t g p a th) as [Hd Hc]; cbv zeta in *.
  destruct (dynamic_safety_cap_bounds f t g) as [Hr Hi]; cbv zeta in *.
  rewrite Hd; split; [| lra].
  destruct Hc as [[_ ->] | (_ & -> & _ & _ & Hpos & _)]; [lra|].
  split.
  - replace 0 with (IZR 0 / 10 ^ 4) by lra.
    rewrite <- (py_round_grid 0 4); apply py_round_le.
    replace (IZR 0 / 10 ^ 4) with 0 by lra; lra.
  - rewrite <- Hi at 2; apply py_round_le, Rmin_r.
Qed.

Lemma selected_delta_p_within_cap_witness :
  let r := reignition_decision [0.5; 0.3; 0.4; 0.2] 0 0.9 0.5 0.5 2 in
  0 <= selected_delta_p r <= delta_p_max r.
Proof.
  cbv zeta.
  apply (selected_delta_p_within_cap [0.5; 0.3; 0.4; 0.2] 0 0.9 0.5 0.5 2);
    try discriminate; try lra; repeat constructor; lra.
Defined.

(** X20.  When an intervention is permitted (fatigue array non-empty and
    without negative entries, trauma intensity and relational gravity
    [>= 0]): the decision is ["CASE_A"] or ["CASE_B"], the cap is at least
    0.05, the test [a_anom > theta_anom] does not hold, and the proposal is
    positive.  In particular a score above [theta_anom] or a cap below 0.05
    is never permitted, and a decision that is not permitted selects 0. *)
Theorem permitted_only_when_safe :
  forall (f : list R) (t g p a th : R),
    f <> [] -> Forall (fun x => 0 <= x) f -> 0 <= t -> 0 <= g ->
    let r := reignition_decision f t g p a th in
    (permitted r = true ->
     (case r = "CASE_A"%string \/ case r = "CASE_B"%string) /\
     0.05 <= delta_p_max r /\ ~ th < a /\ 0 < p) /\
    (permitted r = false -> selected_delta_p r = 0).
Proof.
  intros f t g p a th _ _ _ _.
  destruct (decision_cases f t g p a th) as [Hd Hc]; cbv zeta in *.
  rewrite Hd.
  destruct Hc as [[Hp Hs] | (Hp & _ & H1 & H2 & H3 & H4)]; rewrite Hp.
  - split; [discriminate | intros _; exact Hs].
  - split; [| discriminate].
    intros _; repeat split; try assumption.
    pose proof (Rmin_l p (cap_delta_p_max (dynamic_safety_cap f t g DELTA_P_BASE))).
    lra.
Qed.

Lemma permitted_only_when_safe_witness :
  let r := reignition_decision [1; 0.5; 2; 0.8] 0.1 0.8 0.5 2.5 2 in
  permitted r = false.
Proof.
  cbv zeta.
  destruct (permitted_only_when_safe [1; 0.5; 2; 0.8] 0.1 0.8 0.5 2.5 2) as [H _];
    try discriminate; try lra; [repeat constructor; lra|].
  cbv zeta in H.
  destruct (permitted (reignition_decision [1; 0.5; 2; 0.8] 0.1 0.8 0.5 2.5 2));
    [| reflexivity].
  destruct (H eq_refl) as (_ & _ & K & _); exfalso; apply K; lra.
Defined.

End SafetyCap.

(** * The core engine *)

Section Core.

Import QualiaArcCore.

Lemma sigmoid_range (z : R) : 0 < 1 / (1 + exp (- z)) < 1.
Proof.
  pose proof (exp_pos (- z)) as He.
  assert (Hd : 0 < 1 + exp (- z)) by lra.
  split.
  - apply Rdiv_lt_0_compat; lra.
  - apply Rmult_lt_reg_r with (1 + exp (- z)); [exact Hd|].
    unfold Rdiv; rewrite Rmult_assoc, Rinv_l by lra; lra.
Qed.

Lemma sigmoid_above_half (z : R) : 0.5 < 1 / (1 + exp (- z)) <-> 0 < z.
Proof.
  pose proof (exp_pos (- z)) as He.
  assert (Hd : 0 < 1 + exp (- z)) by lra.
  assert (Hs : 0.5 < 1 / (1 + exp (- z)) <-> exp (- z) < 1).
  { split; intros H.
    - apply Rmult_lt_compat_r with (r := 1 + exp (- z)) in H; [| exact Hd].
      unfold Rdiv in H; rewrite Rmult_assoc, Rinv_l in H by lra; lra.
    - apply Rmult_lt_reg_r with (1 + exp (- z)); [exact Hd|].
      unfold Rdiv; rewrite Rmult_assoc, Rinv_l by lra; lra. }
  rewrite Hs, <- exp_0; split; intros H.
  - apply exp_lt_inv in H; lra.
  - apply exp_increasing; lra.
Qed.

(** X21.  Humor tunneling never fires at or below the saturation
    threshold: for [beta > 0] and [saturation <= theta_sigma] the call
    leaves the engine as it is and, for [H_t >= 0], returns an activation
    between 0 and [H_t / 2]; and whenever a call changes the engine,
    [saturation] was above [theta_sigma] and has been multiplied by 0.1. *)
Theorem tunneling_fires_only_above_threshold :
  forall (s : t) (H_t beta : R),
    0 < beta ->
    (saturation s <= theta_sigma s ->
     fst (quantum_humor_tunneling s H_t beta) = s /\
     (0 <= H_t -> 0 <= snd (quantum_humor_tunneling s H_t beta) <= H_t / 2)) /\
    (fst (quantum_humor_tunneling s H_t beta) <> s ->
     theta_sigma s < saturation s /\
     fst (quantum_humor_tunneling s H_t beta)
     = set_saturation s (saturation s * 0.1)).
Proof.
  intros s H_t beta Hb; unfold quantum_humor_tunneling; cbv zeta.
  replace (- beta * (saturation s - theta_sigma s))
    with (- (beta * (saturation s - theta_sigma s))) by lra.
  set (z := beta * (saturation s - theta_sigma s)).
  pose proof (sigmoid_range z) as Hr.
  pose proof (sigmoid_above_half z) as Hh.
  assert (Hz : 0 < z <-> theta_sigma s < saturation s).
  { unfold z; split; intros H; [nra | apply Rmult_lt_0_compat; lra]. }
  split.
  - intros Hs.
    assert (Hp : 1 / (1 + exp (- z)) <= 0.5).
    { destruct (Rle_dec (1 / (1 + exp (- z))) 0.5) as [K | K]; [exact K|].
      assert (0 < z) by (apply Hh; lra).
      apply Hz in H; lra. }
    rewrite Rgtb_false by exact Hp; cbn [fst snd].
    split; [reflexivity | intros HH; split; nra].
  - destruct (Rgtb (1 / (1 + exp (- z))) 0.5) eqn:E; cbn [fst].
    + intros _; split; [| reflexivity].
      apply Rgtb_true_iff in E; apply Hz, Hh, E.
    + intros K; exfalso; apply K; reflexivity.
Qed.

Lemma tunneling_fires_only_above_threshold_witness :
  fst (quantum_humor_tunneling (set_saturation (init 4.3) 0.5) 1 5)
  = set_saturation (init 4.3) 0.5.
Proof.
  apply (tunneling_fires_only_above_threshold (set_saturation (init 4.3) 0.5) 1 5).
  - lra.
  - simpl; lra.
Defined.

(** X23.  Mismatched vectors: as long as the denominator [D + epsilon] is
    not zero, [calculate_symbiosis_state] raises [ValueError] exactly when
    [psi_vector] and [w_psi] differ in length, whatever the scalars. *)
Theorem symbiosis_raises_iff_mismatched :
  forall (s : t) (A P D : R) (psi w : list R),
    D + epsilon s <> 0 ->
    (calculate_symbiosis_state s A P D psi w = Raised ValueError
     <-> length psi <> length w).
Proof.
  intros s A P D psi w _; unfold calculate_symbiosis_state, Numpy.dot; cbv zeta.
  destruct (Nat.eqb_spec (length psi) (length w)) as [E | E]; split; intros H;
    try reflexivity; try assumption; try discriminate; contradiction.
Qed.

Lemma symbiosis_raises_iff_mismatched_witness :
  calculate_symbiosis_state (init 4.3) 0.9 0.8 0.7 [0.5; 0.2; 0.8] [1; 1]
  = Raised ValueError.
Proof.
  apply (symbiosis_raises_iff_mismatched (init 4.3) 0.9 0.8 0.7
           [0.5; 0.2; 0.8] [1; 1]).
  - simpl; lra.
  - simpl; lia.
Defined.

(** X24.  The two routes of the detector amount to one threshold: a residual
    is reported as anomalous exactly when its norm exceeds the smaller of
    [theta_raw] and [theta_anom]. *)
Theorem detector_is_single_threshold :
  forall (s : t) (residual : list R),
    dual_route_anomaly_detector s residual = true
    <-> Rmin (theta_raw s) (theta_anom s) < Numpy.norm residual.
Proof.
  intros s r; unfold dual_route_anomaly_detector; cbv zeta.
  set (n := Numpy.norm r).
  unfold Rmin; destruct (Rle_dec (theta_raw s) (theta_anom s)) as [Hle | Hgt].
  - destruct (Rgtb n (theta_raw s)) eqn:E1.
    + apply Rgtb_true_iff in E1; tauto.
    + assert (H1 : n <= theta_raw s).
      { destruct (Rle_dec n (theta_raw s)) as [K | K]; [exact K|].
        rewrite Rgtb_true in E1 by lra; discriminate. }
      rewrite Rgtb_false by lra.
      split; [discriminate | lra].
  - destruct (Rgtb n (theta_raw s)) eqn:E1.
    + apply Rgtb_true_iff in E1; split; [lra | reflexivity].
    + destruct (Rgtb n (theta_anom s)) eqn:E2.
      * apply Rgtb_true_iff in E2; tauto.
      * split; [discriminate|].
        intros H; rewrite Rgtb_true in E2 by exact H; discriminate.
Qed.

End Core.
